(** * Crypto-Analyst: scoring, aggregation and risk-override core

    A shallow embedding of the pure core of the agent swarm:
    - [agents/base_agent.py]       ([BaseAgent]),
    - [scripts/aggregate_votes.py] ([AggregateVotes]),
    - [scripts/risk_engine.py]     ([RiskEngine]).

    Numbers.  Python scores, weights and thresholds are [int]s and [float]s;
    they are embedded as exact rationals [Q].  Comparisons are exact on both
    sides; arithmetic is the exact one, so statements about sums and
    quotients are stated up to [Qeq] and do not speak about rounding.

    Dictionaries.  A dictionary used as a struct (an indicator, a vote, a
    band, the consensus) is a record whose optional keys are [option]
    fields; a dictionary used as a map (weights, indicators, weighted
    signals) is a [gmap string _]; the vote counter, whose iteration order
    decides the majority action, is an association list in insertion order.

    Exceptions.  Operations that raise in Python ([/] by zero, [d[k]] on a
    missing key, [max] of an empty sequence) return in the [Py.res] monad. *)

From Stdlib Require Import QArith Qminmax Lqa ZArith.
From stdpp Require Import gmap strings pretty list fin_maps.

(** ** Python run-time operations *)

Module Py.

Inductive exn : Type :=
| ZeroDivisionError
| KeyError (key : string)
| ValueError.

Inductive res (A : Type) : Type :=
| Ret (a : A)
| Raise (e : exn).
Arguments Ret {A} a.
Arguments Raise {A} e.

#[export] Instance res_ret : MRet res := λ A a, Ret a.
#[export] Instance res_bind : MBind res := λ A B k m,
  match m with
  | Ret a => k a
  | Raise e => Raise e
  end.

Definition raises {A} (m : res A) : Prop :=
  match m with Ret _ => False | Raise _ => True end.

(** comparisons of numbers *)
Definition lt (a b : Q) : bool := negb (Qle_bool b a).
Definition le (a b : Q) : bool := Qle_bool a b.
Definition gt (a b : Q) : bool := lt b a.
Definition ge (a b : Q) : bool := le b a.
Definition eq_num (a b : Q) : bool := Qeq_bool a b.

(** [a / b] *)
Definition truediv (a b : Q) : res Q :=
  if eq_num b 0 then Raise ZeroDivisionError else Ret (a / b)%Q.

(** [min(a, b)] and [max(a, b)]: the first argument wins a tie. *)
Definition min2 (a b : Q) : Q := if lt b a then b else a.
Definition max2 (a b : Q) : Q := if gt b a then b else a.

(** [len(x)] as a number *)
Definition of_nat (n : nat) : Q := inject_Z (Z.of_nat n).

(** [sum(xs)] *)
Definition sum (xs : list Q) : Q := fold_left Qplus xs 0%Q.

(** [max(xs)] of a sequence of counts; [ValueError] when it is empty. *)
Definition max_nat (xs : list nat) : res nat :=
  match xs with
  | [] => Raise ValueError
  | x :: xs' => Ret (fold_left (λ best y, if Nat.ltb best y then y else best) xs' x)
  end.

(** [max(items, key=...)]: the first item with the greatest key. *)
Definition max_by {A} (key : A → nat) (xs : list A) : res A :=
  match xs with
  | [] => Raise ValueError
  | x :: xs' =>
      Ret (fold_left (λ best y, if Nat.ltb (key best) (key y) then y else best) xs' x)
  end.

(** [not d] for a dictionary or a list *)
Definition dict_falsy {V} (d : gmap string V) : bool := Nat.eqb (size d) 0.
Definition list_falsy {A} (l : list A) : bool := Nat.eqb (length l) 0.

(** truthiness of an optional string ([None] and [''] are false) *)
Definition str_truthy (s : option string) : bool :=
  match s with
  | Some (String _ _) => true
  | _ => false
  end.

(** Insertion-ordered dictionary with string keys. *)
Definition odict (V : Type) : Type := list (string * V).

Fixpoint odict_get {V} (d : odict V) (k : string) : option V :=
  match d with
  | [] => None
  | (k', v) :: d' => if String.eqb k' k then Some v else odict_get d' k
  end.

(** [d[k] = v]: an existing key keeps its position, a new one goes last. *)
Fixpoint odict_set {V} (d : odict V) (k : string) (v : V) : odict V :=
  match d with
  | [] => [(k, v)]
  | (k', v') :: d' =>
      if String.eqb k' k then (k', v) :: d' else (k', v') :: odict_set d' k v
  end.

End Py.
Export Py.

(** ** Records exchanged between the stages *)

Module Data.

(** A string literal given by its bytes, for the non-ASCII literals of the
    sources. *)
Definition of_bytes (bs : list nat) : string :=
  String.string_of_list_ascii (Ascii.ascii_of_nat <$> bs).

(** An indicator record [{name, value, signal, timestamp}]; every key may
    be missing. *)
Record indicator : Type := Indicator {
  ind_name : option string;
  ind_value : option Q;
  ind_signal : option string;
  ind_timestamp : option string
}.

(** What an agent wrote: the keys [aggregate_votes.py] reads. *)
Record agent_output : Type := AgentOutput {
  out_agent_name : option string;
  out_score : option Q;
  out_action : option string;
  out_confidence : option Q;
  out_rationale : option string
}.

(** One entry of [agent_votes] in the consensus. *)
Record agent_vote : Type := AgentVote {
  v_name : string;
  v_score : Q;
  v_action : string;
  v_confidence : Q;
  v_rationale : string
}.

(** One band of [consensus_to_action] in [action_map.yaml]. *)
Record band : Type := Band {
  b_min : option Q;
  b_max : option Q;
  b_action : option string;
  b_emoji : option string
}.

(** The loaded [action_map.yaml]. *)
Record action_map : Type := ActionMap {
  consensus_to_action : option (list band)
}.

(** The dictionary [analyze_agent_distribution] returns. *)
Record distribution_info : Type := DistributionInfo {
  distribution : odict nat;
  agreement_level : Q;
  majority_action : option string
}.

(** A risk flag, as the three checks of [risk_engine.py] build it. *)
Record risk_flag : Type := RiskFlag {
  rf_flag : string;
  rf_value : Q;
  rf_threshold : Q;
  rf_name : string;
  rf_description : string;
  rf_emoji : string
}.

(** The consensus dictionary: written by [aggregate_votes], read back
    from its file and amended by [apply_risk_overrides]. *)
Record consensus : Type := Consensus {
  c_date : option string;
  c_timestamp : option string;
  c_score : option Q;
  c_action : option string;
  c_emoji : option string;
  c_agent_votes : option (list agent_vote);
  c_distribution : option distribution_info;
  c_risk_flags : option (list risk_flag);
  c_original_action : option string;
  c_risk_override : option bool
}.

(** [consensus['risk_flags'] = flags] and the other assignments of
    [apply_risk_overrides]. *)
Definition set_risk_flags (c : consensus) (flags : list risk_flag) : consensus :=
  {| c_date := c_date c; c_timestamp := c_timestamp c; c_score := c_score c;
     c_action := c_action c; c_emoji := c_emoji c;
     c_agent_votes := c_agent_votes c; c_distribution := c_distribution c;
     c_risk_flags := Some flags;
     c_original_action := c_original_action c;
     c_risk_override := c_risk_override c |}.

Definition set_original_action (c : consensus) (a : string) : consensus :=
  {| c_date := c_date c; c_timestamp := c_timestamp c; c_score := c_score c;
     c_action := c_action c; c_emoji := c_emoji c;
     c_agent_votes := c_agent_votes c; c_distribution := c_distribution c;
     c_risk_flags := c_risk_flags c;
     c_original_action := Some a;
     c_risk_override := c_risk_override c |}.

Definition set_action (c : consensus) (a : string) : consensus :=
  {| c_date := c_date c; c_timestamp := c_timestamp c; c_score := c_score c;
     c_action := Some a; c_emoji := c_emoji c;
     c_agent_votes := c_agent_votes c; c_distribution := c_distribution c;
     c_risk_flags := c_risk_flags c;
     c_original_action := c_original_action c;
     c_risk_override := c_risk_override c |}.

Definition set_emoji (c : consensus) (e : string) : consensus :=
  {| c_date := c_date c; c_timestamp := c_timestamp c; c_score := c_score c;
     c_action := c_action c; c_emoji := Some e;
     c_agent_votes := c_agent_votes c; c_distribution := c_distribution c;
     c_risk_flags := c_risk_flags c;
     c_original_action := c_original_action c;
     c_risk_override := c_risk_override c |}.

Definition set_risk_override (c : consensus) (b : bool) : consensus :=
  {| c_date := c_date c; c_timestamp := c_timestamp c; c_score := c_score c;
     c_action := c_action c; c_emoji := c_emoji c;
     c_agent_votes := c_agent_votes c; c_distribution := c_distribution c;
     c_risk_flags := c_risk_flags c;
     c_original_action := c_original_action c;
     c_risk_override := Some b |}.

End Data.
Export Data.

(** ** agents/base_agent.py *)

Module BaseAgent.

(** The agent specification, as far as [__init__] reads it. *)
Record agent_spec : Type := AgentSpec {
  spec_name : option string;
  spec_type : option string;
  spec_weights : option (gmap string Q)
}.

(** The attributes of a [BaseAgent] instance. *)
Record agent : Type := Agent {
  spec : agent_spec;
  indicators : gmap string indicator;
  name : string;
  type : string;
  weights : gmap string Q
}.

Definition init (s : agent_spec) (inds : gmap string indicator) : agent :=
  {| spec := s;
     indicators := inds;
     name := default "UnknownAgent" (spec_name s);
     type := default "generic" (spec_type s);
     weights := default ∅ (spec_weights s) |}.

Definition set_weights (self : agent) (w : gmap string Q) : agent :=
  {| spec := spec self;
     indicators := indicators self;
     name := name self;
     type := type self;
     weights := w |}.

(** One value of the dictionary [weight_signals] returns. *)
Record weighted_signal : Type := WeightedSignal {
  raw_value : Q;
  signal : string;
  base_score : Z;
  weight : Q;
  weighted_score : Q
}.

(** The [if signal == 'bullish' ... elif ... else] of [weight_signals]. *)
Definition signal_base_score (signal : string) : Z :=
  if String.eqb signal "bullish" then 75
  else if String.eqb signal "bearish" then 25
  else 50.

(** The dictionary stored under [weighted_scores[indicator_name]]. *)
Definition make_weighted_signal (indicator : indicator) (weight : Q) : weighted_signal :=
  (* Convert signal to numeric score (0-100) *)
  let signal := default "neutral" (ind_signal indicator) in
  let raw_value := default 50%Q (ind_value indicator) in
  let base_score := signal_base_score signal in
  {| raw_value := raw_value;
     signal := signal;
     base_score := base_score;
     weight := weight;
     weighted_score := (inject_Z base_score * weight)%Q |}.

(** The body of the [for indicator_name, weight in self.weights.items()]
    loop, acting on the dictionary [weighted_scores] built so far. *)
Definition weigh_one (inds : gmap string indicator)
    (indicator_name : string) (weight : Q)
    (weighted_scores : gmap string weighted_signal) : gmap string weighted_signal :=
  match inds !! indicator_name with
  | Some indicator =>
      <[indicator_name := make_weighted_signal indicator weight]> weighted_scores
  | None => weighted_scores   (* logged as a warning *)
  end.

(** [weight_signals(self)]: the result and the agent after the call. *)
Definition weight_signals (self : agent)
    : res (gmap string weighted_signal * agent) :=
  self' ← (if dict_falsy (weights self) && negb (dict_falsy (indicators self))
           then
             equal_weight ← truediv 1 (of_nat (size (indicators self)));
             mret (set_weights self ((λ _, equal_weight) <$> indicators self))
           else mret self);
  mret (map_fold (weigh_one (indicators self')) ∅ (weights self'), self').

(** [calculate_composite_score(self, weighted_signals)] *)
Definition calculate_composite_score
    (weighted_signals : gmap string weighted_signal) : res Q :=
  if dict_falsy weighted_signals then mret 50%Q
  else
    let total_weight := sum (weight <$> (map_to_list weighted_signals).*2) in
    if eq_num total_weight 0 then mret 50%Q
    else
      let weighted_sum :=
        sum (weighted_score <$> (map_to_list weighted_signals).*2) in
      composite ← truediv weighted_sum total_weight;
      mret (max2 0 (min2 100 composite)).

(** [determine_action(self, score)] *)
Definition determine_action (score : Q) : string :=
  if ge score 75 then "STRONG_BUY"
  else if ge score 60 then "BUY"
  else if le score 25 then "STRONG_SELL"
  else if le score 40 then "SELL"
  else "HOLD".

End BaseAgent.

(** ** scripts/aggregate_votes.py *)

Module AggregateVotes.

Definition emoji_red : string := of_bytes [230; 184; 184; 235; 140; 174].
Definition emoji_yellow : string := of_bytes [230; 184; 184; 235; 166; 172].
Definition emoji_green : string := of_bytes [230; 184; 184; 235; 166; 173].

(** The configuration [load_config] falls back to when the file cannot be
    read. *)
Definition default_config : action_map :=
  {| consensus_to_action := Some
       [ {| b_min := None; b_max := Some 40%Q;
            b_action := Some "de-risk"; b_emoji := Some emoji_red |};
         {| b_min := Some 40%Q; b_max := Some 60%Q;
            b_action := Some "hold"; b_emoji := Some emoji_yellow |};
         {| b_min := Some 60%Q; b_max := None;
            b_action := Some "buy"; b_emoji := Some emoji_green |} ] |}.

(** [calculate_consensus_pct(agent_outputs)] *)
Definition calculate_consensus_pct (agent_outputs : list agent_output) : res Q :=
  if list_falsy agent_outputs then mret 50%Q   (* Neutral default *)
  else
    let total_score := sum ((λ output, default 50%Q (out_score output)) <$> agent_outputs) in
    truediv total_score (of_nat (length agent_outputs)).

(** What [map_consensus_to_action] returns. *)
Record action_mapping : Type := ActionMapping {
  am_action : string;
  am_emoji : string
}.

(** ['k' in mapping and test(mapping['k'])] *)
Definition has_and (bound : option Q) (test : Q → bool) : bool :=
  match bound with
  | Some x => test x
  | None => false
  end.

(** ['k' not in mapping] *)
Definition lacks (bound : option Q) : bool :=
  match bound with
  | Some _ => false
  | None => true
  end.

Definition mapping_result (mapping : band) : action_mapping :=
  {| am_action := default "hold" (b_action mapping);
     am_emoji := default emoji_yellow (b_emoji mapping) |}.

(** The [for mapping in consensus_map] loop; [None] when it falls through. *)
Fixpoint scan_consensus_map (consensus_pct : Q) (consensus_map : list band)
    : option action_mapping :=
  match consensus_map with
  | [] => None
  | mapping :: rest =>
      (* Check if value is below max threshold *)
      if has_and (b_max mapping) (λ mx, lt consensus_pct mx) then
        Some (mapping_result mapping)
      (* Check if value is above min threshold and below max threshold *)
      else if has_and (b_min mapping) (λ mn, ge consensus_pct mn)
              && has_and (b_max mapping) (λ mx, lt consensus_pct mx) then
        Some (mapping_result mapping)
      (* Check if value is above min threshold (no max threshold) *)
      else if has_and (b_min mapping) (λ mn, ge consensus_pct mn)
              && lacks (b_max mapping) then
        Some (mapping_result mapping)
      else scan_consensus_map consensus_pct rest
  end.

(** [map_consensus_to_action(consensus_pct, action_map)] *)
Definition map_consensus_to_action (consensus_pct : Q) (action_map : action_map)
    : action_mapping :=
  let consensus_map := default [] (consensus_to_action action_map) in
  match scan_consensus_map consensus_pct consensus_map with
  | Some found => found
  | None => {| am_action := "hold"; am_emoji := emoji_yellow |}
  end.

(** The body of the vote counting loop of [analyze_agent_distribution]. *)
Definition count_vote (action_counts : odict nat) (output : agent_output) : odict nat :=
  let action := default "HOLD" (out_action output) in
  odict_set action_counts action (default 0 (odict_get action_counts action) + 1).

(** The loop, from the empty dictionary. *)
Definition count_actions (agent_outputs : list agent_output) : odict nat :=
  fold_left count_vote agent_outputs [].

(** [analyze_agent_distribution(agent_outputs)] *)
Definition analyze_agent_distribution (agent_outputs : list agent_output)
    : res distribution_info :=
  if length agent_outputs <=? 1 then
    mret {| distribution := []; agreement_level := 1%Q; majority_action := None |}
  else
    let action_counts := count_actions agent_outputs in
    max_count ← (if negb (list_falsy action_counts)
                 then max_nat (action_counts.*2) else mret 0);
    agreement_level ← (if 0 <? length agent_outputs
                       then truediv (of_nat max_count) (of_nat (length agent_outputs))
                       else mret 1%Q);
    majority ← (if negb (list_falsy action_counts)
                then top ← max_by snd action_counts; mret (top.1)
                else mret "HOLD");
    mret {| distribution := action_counts;
            agreement_level := agreement_level;
            majority_action := Some majority |}.

(** [aggregate_votes(agent_outputs, config)]; [today] and [now] stand for
    the two readings of the clock. *)
Definition aggregate_votes (today now : string)
    (agent_outputs : list agent_output) (config : action_map) : res consensus :=
  consensus_pct ← calculate_consensus_pct agent_outputs;
  let action_mapping := map_consensus_to_action consensus_pct config in
  distribution ← analyze_agent_distribution agent_outputs;
  let agent_votes :=
    (λ output,
       {| v_name := default "Unknown" (out_agent_name output);
          v_score := default 50%Q (out_score output);
          v_action := default "HOLD" (out_action output);
          v_confidence := default 0.5%Q (out_confidence output);
          v_rationale := default "" (out_rationale output) |}) <$> agent_outputs in
  mret {| c_date := Some today;
          c_timestamp := Some now;
          c_score := Some consensus_pct;
          c_action := Some (am_action action_mapping);
          c_emoji := Some (am_emoji action_mapping);
          c_agent_votes := Some agent_votes;
          c_distribution := Some distribution;
          c_risk_flags := None;
          c_original_action := None;
          c_risk_override := None |}.

(** The gate of [main]: without agent outputs nothing is aggregated and the
    script exits with status 1. *)
Definition main_gate (today now : string)
    (agent_outputs : list agent_output) (config : action_map)
    : Z * option consensus :=
  if list_falsy agent_outputs then (1%Z, None)
  else
    match aggregate_votes today now agent_outputs config with
    | Ret consensus => (0%Z, Some consensus)
    | Raise _ => (1%Z, None)
    end.

End AggregateVotes.

(** ** scripts/risk_engine.py *)

Module RiskEngine.

Definition emoji_warning : string :=
  of_bytes [195; 162; 197; 161; 194; 160; 195; 175; 194; 184].
Definition emoji_rainbow : string :=
  of_bytes [195; 176; 197; 184; 197; 146; 203; 134].
Definition emoji_pi : string := of_bytes [195; 143; 226; 130; 172].
Definition emoji_red : string :=
  of_bytes [195; 176; 197; 184; 226; 128; 157; 194; 180].

(** [indicator['value']] *)
Definition getitem_value (indicator : indicator) : res Q :=
  match ind_value indicator with
  | Some v => Ret v
  | None => Raise (KeyError "value")
  end.

(** ['value' not in indicator] *)
Definition lacks_value (indicator : indicator) : bool :=
  match ind_value indicator with
  | Some _ => false
  | None => true
  end.

Section Checks.

(** The two number formats of the descriptions: [f"{x:.2f}"] and
    [f"{x}"]. *)
Variable format_2f : Q → string.
Variable format_plain : Q → string.

(** [check_cbbi_risk(indicator)] *)
Definition check_cbbi_risk (indicator : indicator) : res (option risk_flag) :=
  if lacks_value indicator then mret None
  else
    cbbi_value ← getitem_value indicator;
    (* CBBI >= 0.8 is high risk *)
    if ge cbbi_value 0.8 then
      mret (Some
        {| rf_flag := "cbbi_high";
           rf_value := cbbi_value;
           rf_threshold := 0.8;
           rf_name := "High CBBI";
           rf_description :=
             String.append "CBBI value of "
               (String.append (format_2f cbbi_value)
                  " indicates extreme market euphoria");
           rf_emoji := emoji_warning |})
    else mret None.

(** [check_rainbow_risk(indicator)] *)
Definition check_rainbow_risk (indicator : indicator) : res (option risk_flag) :=
  if lacks_value indicator then mret None
  else
    band_value ← getitem_value indicator;
    (* Band >= 7 is high risk (top bands) *)
    if ge band_value 7 then
      mret (Some
        {| rf_flag := "rainbow_top";
           rf_value := band_value;
           rf_threshold := 7;
           rf_name := "Top Rainbow Band";
           rf_description :=
             String.append "BTC price is in band "
               (String.append (format_plain band_value)
                  " of the Rainbow Chart, indicating potential top");
           rf_emoji := emoji_rainbow |})
    else mret None.

(** [check_pi_cycle_risk(indicator)] *)
Definition check_pi_cycle_risk (indicator : indicator) : res (option risk_flag) :=
  if lacks_value indicator then mret None
  else
    pi_value ← getitem_value indicator;
    (* Pi-Cycle >= 0.95 is high risk *)
    if ge pi_value 0.95 then
      mret (Some
        {| rf_flag := "pi_cycle_top";
           rf_value := pi_value;
           rf_threshold := 0.95;
           rf_name := "Pi-Cycle Near Top";
           rf_description :=
             String.append "Pi-Cycle value of "
               (String.append (format_2f pi_value)
                  " indicates potential market top");
           rf_emoji := emoji_pi |})
    else mret None.

(** One [if key in indicators: ...] block of [apply_risk_overrides],
    acting on the pair of locals [risk_flags], [forced_action]. *)
Definition run_check (key : string)
    (check : indicator → res (option risk_flag))
    (indicators : gmap string indicator)
    (locals : list risk_flag * option string)
    : res (list risk_flag * option string) :=
  let '(risk_flags, forced_action) := locals in
  match indicators !! key with
  | Some indicator =>
      risk ← check indicator;
      match risk with
      | Some flag => mret (risk_flags ++ [flag], Some "de-risk")
      | None => mret (risk_flags, forced_action)
      end
  | None => mret (risk_flags, forced_action)
  end.

(** The three checks in the order of the source. *)
Definition collect_risk_flags (indicators : gmap string indicator)
    : res (list risk_flag * option string) :=
  locals ← run_check "Cbbi" check_cbbi_risk indicators ([], None);
  locals ← run_check "Rainbow Bands" check_rainbow_risk indicators locals;
  run_check "Pi Cycle" check_pi_cycle_risk indicators locals.

(** [next((mapping for mapping in ... if mapping.get('action') ==
    forced_action), {})] *)
Definition find_action_mapping (config : action_map) (forced_action : string) : band :=
  default {| b_min := None; b_max := None; b_action := None; b_emoji := None |}
    (List.find
       (λ mapping, match b_action mapping with
                   | Some a => String.eqb a forced_action
                   | None => false
                   end)
       (default [] (consensus_to_action config))).

(** [apply_risk_overrides(consensus, indicators)]; [config] is what
    [load_config(ACTION_MAP_PATH)] returns. *)
Definition apply_risk_overrides (config : action_map)
    (consensus : consensus) (indicators : gmap string indicator) : res Data.consensus :=
  '(risk_flags, forced_action) ← collect_risk_flags indicators;
  (* Create a copy of the consensus to modify *)
  let updated_consensus := consensus in
  (* Add risk flags to the consensus *)
  let updated_consensus := set_risk_flags updated_consensus risk_flags in
  (* Override action if needed *)
  match forced_action with
  | Some forced =>
      if str_truthy forced_action && negb (list_falsy risk_flags) then
        let action_mapping := find_action_mapping config forced in
        let previous_action := default "hold" (c_action updated_consensus) in
        let updated_consensus := set_original_action updated_consensus previous_action in
        let updated_consensus := set_action updated_consensus forced in
        let updated_consensus :=
          set_emoji updated_consensus (default emoji_red (b_emoji action_mapping)) in
        mret (set_risk_override updated_consensus true)
      else mret (set_risk_override updated_consensus false)
  | None => mret (set_risk_override updated_consensus false)
  end.

End Checks.

End RiskEngine.

(** ** Reference definitions, in the words of the specification *)

Module Spec.

Import BaseAgent AggregateVotes.

(** [clamp(x, 0, 100)] *)
Definition clamp (x : Q) : Q := Qmax 0 (Qmin 100 x).

(** The sum of a field over the values of a weighted-signal mapping. *)
Definition total (field : weighted_signal → Q)
    (weighted_signals : gmap string weighted_signal) : Q :=
  foldr (λ entry acc, (field entry.2 + acc)%Q) 0%Q (map_to_list weighted_signals).

(** [sum(weighted_score) / sum(weight)] *)
Definition weighted_mean (weighted_signals : gmap string weighted_signal) : Q :=
  (total weighted_score weighted_signals / total weight weighted_signals)%Q.

(** Equal weights [1/count(indicators)] over every available indicator. *)
Definition equal_weights (inds : gmap string indicator) : gmap string Q :=
  (λ _, 1 / of_nat (size inds))%Q <$> inds.

(** Signal Scorer: bullish 75, bearish 25, anything else 50. *)
Definition score_of_signal (signal : string) : Z :=
  if decide (signal = "bullish") then 75
  else if decide (signal = "bearish") then 25
  else 50.

(** The half-open rule of the Action Threshold Table. *)
Definition band_matches (value : Q) (b : band) : Prop :=
  match b_min b, b_max b with
  | None, Some mx => (value < mx)%Q
  | Some mn, Some mx => (mn <= value)%Q ∧ (value < mx)%Q
  | Some mn, None => (mn <= value)%Q
  | None, None => False
  end.

(** The half-open rule is decidable. *)
#[export] Instance band_matches_dec value b : Decision (band_matches value b).
Proof.
  unfold band_matches. destruct (b_min b) as [mn|], (b_max b) as [mx|].
  - destruct (Qlt_le_dec value mn); [right; intros [? ?]; lra |].
    destruct (Qlt_le_dec value mx); [left; split; assumption | right; intros [? ?]; lra].
  - destruct (Qlt_le_dec value mn); [right; lra | left; assumption].
  - destruct (Qlt_le_dec value mx); [left; assumption | right; lra].
  - right; tauto.
Defined.

(** The first band of the table, in table order, that matches. *)
Definition first_match (value : Q) (table : list band) : option band :=
  List.find (λ b, bool_decide (band_matches value b)) table.

(** The action of a vote, [HOLD] when the vote has none. *)
Definition action_of (output : agent_output) : string :=
  default "HOLD" (out_action output).

(** The score of a vote, 50 when the vote has none. *)
Definition score_of (output : agent_output) : Q :=
  default 50%Q (out_score output).

(** [mean(score for each vote)] *)
Definition mean_score (agent_outputs : list agent_output) : Q :=
  (foldr (λ output acc, score_of output + acc) 0 agent_outputs
   / of_nat (length agent_outputs))%Q.

(** How many votes carry a given action. *)
Definition votes_for (action : string) (agent_outputs : list agent_output) : nat :=
  length (filter (λ output, action_of output = action) agent_outputs).

(** The order of the rationals is decidable. *)
#[export] Instance Qle_decision (a b : Q) : Decision (a <= b)%Q.
Proof.
  destruct (Qlt_le_dec b a); [right; lra | left; assumption].
Defined.

(** The identifier, value and threshold a hard check reports for an
    indicator record: one entry when the record has a value that reaches
    the threshold, none otherwise. *)
Definition expected_of (ind : indicator) (flag : string) (threshold : Q)
    : list (string * Q * Q) :=
  match ind_value ind with
  | Some v => if decide (threshold <= v)%Q then [(flag, v, threshold)] else []
  | None => []
  end.

(** The same for the indicator stored under a key, if there is one. *)
Definition expected_flag (indicators : gmap string indicator)
    (key flag : string) (threshold : Q) : list (string * Q * Q) :=
  match indicators !! key with
  | Some ind => expected_of ind flag threshold
  | None => []
  end.

(** What the three hard checks report, in the order of the source. *)
Definition expected_flags (indicators : gmap string indicator) : list (string * Q * Q) :=
  expected_flag indicators "Cbbi" "cbbi_high" 0.8%Q
  ++ expected_flag indicators "Rainbow Bands" "rainbow_top" 7%Q
  ++ expected_flag indicators "Pi Cycle" "pi_cycle_top" 0.95%Q.

(** The identifier, value and threshold of a risk flag. *)
Definition flag_summary (f : risk_flag) : string * Q * Q :=
  (rf_flag f, rf_value f, rf_threshold f).

(** A check function reports what is expected of it on every record. *)
Definition check_meets (check : indicator → res (option risk_flag))
    (flag : string) (threshold : Q) : Prop :=
  ∀ ind, ∃ r, check ind = Ret r
    ∧ flag_summary <$> option_list r = expected_of ind flag threshold.

End Spec.

(** ** Concrete inputs *)

Module Examples.

Import BaseAgent AggregateVotes.

Definition ind (value : Q) (signal : string) : indicator :=
  {| ind_name := None; ind_value := Some value;
     ind_signal := Some signal; ind_timestamp := None |}.

(** An indicator record without a ['value'] key. *)
Definition ind_without_value : indicator :=
  {| ind_name := Some "CBBI"; ind_value := None;
     ind_signal := Some "neutral"; ind_timestamp := None |}.

(** The indicators of [tests/test_run_agent.py]. *)
Definition sample_indicators : gmap string indicator :=
  {[ "CBBI" := ind 0.65 "neutral";
     "Rainbow Bands" := ind 3 "bullish";
     "Pi Cycle" := ind 0.85 "bearish" ]}.

(** The agent of [tests/test_run_agent.py]; its weights name one more
    indicator, which is not available. *)
Definition sample_agent : agent :=
  init {| spec_name := Some "Test Agent"; spec_type := Some "rule_based";
          spec_weights := Some {[ "CBBI" := 0.4%Q; "Rainbow Bands" := 0.3%Q;
                                  "Pi Cycle" := 0.3%Q; "MVRV" := 0.2%Q ]} |}
       sample_indicators.

(** An agent that declares no weights. *)
Definition unweighted_agent : agent :=
  init {| spec_name := Some "Plain"; spec_type := None; spec_weights := None |}
       {[ "CBBI" := ind 0.65 "bullish"; "Pi Cycle" := ind 0.85 "bearish" ]}.

Definition entry (weighted_score weight : Q) : weighted_signal :=
  {| raw_value := 50; signal := "neutral"; base_score := 50;
     weight := weight; weighted_score := weighted_score |}.

(** [{A: {weighted_score: 40, weight: 1}, B: {weighted_score: 60, weight: 1}}] *)
Definition two_signals : gmap string weighted_signal :=
  {[ "A" := entry 40 1; "B" := entry 60 1 ]}.

Definition vote (action : string) (score : Q) : agent_output :=
  {| out_agent_name := None; out_score := Some score; out_action := Some action;
     out_confidence := None; out_rationale := None |}.

(** Three voters with the actions BUY, BUY, HOLD and the scores 80, 60, 40. *)
Definition three_votes : list agent_output :=
  [vote "BUY" 80; vote "BUY" 60; vote "HOLD" 40].

Definition hold_band : band :=
  {| b_min := Some 40%Q; b_max := Some 60%Q;
     b_action := Some "hold"; b_emoji := Some emoji_yellow |}.

Definition de_risk_band : band :=
  {| b_min := None; b_max := Some 40%Q;
     b_action := Some "de-risk"; b_emoji := Some AggregateVotes.emoji_red |}.

Definition buy_band : band :=
  {| b_min := Some 60%Q; b_max := None;
     b_action := Some "buy"; b_emoji := Some emoji_green |}.

(** The bands of the built-in table, with the band that carries both
    bounds listed first. *)
Definition hold_first_table : action_map :=
  {| consensus_to_action := Some [hold_band; de_risk_band; buy_band] |}.

(** The formats of the descriptions, for the examples: the number as a
    fraction. *)
Definition show_Q (q : Q) : string :=
  String.append (pretty (Qnum q)) (String.append "/" (pretty (Zpos (Qden q)))).

(** A consensus as [aggregate_votes] writes it, with the action buy. *)
Definition buy_consensus : consensus :=
  {| c_date := Some "2025-05-20";
     c_timestamp := Some "2025-05-20T00:00:00";
     c_score := Some 65%Q;
     c_action := Some "buy";
     c_emoji := Some emoji_green;
     c_agent_votes := Some [];
     c_distribution := Some {| distribution := [("BUY", 2%nat); ("HOLD", 1%nat)];
                               agreement_level := (2 # 3)%Q;
                               majority_action := Some "BUY" |};
     c_risk_flags := None;
     c_original_action := None;
     c_risk_override := None |}.

(** Indicators with a CBBI of 0.85, as the risk engine keys them. *)
Definition hot_indicators : gmap string indicator :=
  {[ "Cbbi" := ind 0.85 "bearish";
     "Rainbow Bands" := ind 3 "bullish";
     "Pi Cycle" := ind 0.7 "neutral" ]}.

(** Indicators below every threshold. *)
Definition calm_indicators : gmap string indicator :=
  {[ "Cbbi" := ind 0.65 "neutral";
     "Rainbow Bands" := ind 3 "bullish";
     "Pi Cycle" := ind 0.7 "neutral" ]}.

End Examples.

(** ** Python string methods, on ASCII text

    Strings are sequences of bytes; the methods below act on the ASCII
    letters and leave every other byte alone, which is what the Python
    methods do on ASCII text. *)

Module Text.

Definition is_upper (c : Ascii.ascii) : bool :=
  let n := Ascii.nat_of_ascii c in (65 <=? n)%nat && (n <=? 90)%nat.

Definition is_lower (c : Ascii.ascii) : bool :=
  let n := Ascii.nat_of_ascii c in (97 <=? n)%nat && (n <=? 122)%nat.

Definition to_lower (c : Ascii.ascii) : Ascii.ascii :=
  if is_upper c then Ascii.ascii_of_nat (Ascii.nat_of_ascii c + 32) else c.

Definition to_upper (c : Ascii.ascii) : Ascii.ascii :=
  if is_lower c then Ascii.ascii_of_nat (Ascii.nat_of_ascii c - 32) else c.

(** [s.lower()] *)
Fixpoint lower (s : string) : string :=
  match s with
  | EmptyString => EmptyString
  | String c rest => String (to_lower c) (lower rest)
  end.

(** [s.replace(old, new)] for one-character [old] and [new] *)
Fixpoint replace (old new : Ascii.ascii) (s : string) : string :=
  match s with
  | EmptyString => EmptyString
  | String c rest =>
      String (if Ascii.eqb c old then new else c) (replace old new rest)
  end.

(** [s.title()]: a letter is put in upper case when the character before
    it is not a letter, in lower case when it is. *)
Fixpoint title_from (previous_is_cased : bool) (s : string) : string :=
  match s with
  | EmptyString => EmptyString
  | String c rest =>
      String (if previous_is_cased then to_lower c else to_upper c)
             (title_from (is_upper c || is_lower c) rest)
  end.

Definition title (s : string) : string := title_from false s.

(** The characters [' '] and ['_']. *)
Definition space : Ascii.ascii := Ascii.ascii_of_nat 32.
Definition underscore : Ascii.ascii := Ascii.ascii_of_nat 95.

(** The characters of a string. *)
Fixpoint chars (s : string) : list Ascii.ascii :=
  match s with
  | EmptyString => []
  | String c rest => c :: chars rest
  end.

End Text.

(** ** scripts/refresh_indicators.py *)

Module RefreshIndicators.

(** [get_signal_from_value(indicator_name, value)] *)
Definition get_signal_from_value (indicator_name : string) (value : Q) : string :=
  (* CBBI signal thresholds *)
  if String.eqb (Text.lower indicator_name) "cbbi" then
    if ge value 0.8 then "bearish"
    else if le value 0.3 then "bullish"
    else "neutral"
  (* Rainbow Bands signal thresholds (band position 1-8) *)
  else if String.eqb (Text.lower indicator_name) "rainbow_bands" then
    if ge value 7 then "bearish"
    else if le value 2 then "bullish"
    else "neutral"
  (* Pi Cycle signal thresholds (ratio approaching 1.0 is bearish) *)
  else if String.eqb (Text.lower indicator_name) "pi_cycle" then
    if ge value 0.95 then "bearish"
    else if le value 0.5 then "bullish"
    else "neutral"
  (* Default for unknown indicators *)
  else
    if ge value 70 then "bearish"
    else if le value 30 then "bullish"
    else "neutral".

(** The directory [save_indicator] writes an indicator to:
    [indicator['name'].lower().replace(' ', '_')]. *)
Definition indicator_dir (name : string) : string :=
  Text.replace Text.space Text.underscore (Text.lower name).

(** The record [fetch_cbbi] builds from the value it fetched. *)
Definition cbbi_result (cbbi_value : Q) (timestamp : string) : indicator :=
  (* Determine signal based on value *)
  let signal := get_signal_from_value "cbbi" cbbi_value in
  {| ind_name := Some "CBBI";
     ind_value := Some cbbi_value;
     ind_signal := Some signal;
     ind_timestamp := Some timestamp |}.

(** The record [fetch_rainbow_bands] builds from the band position. *)
Definition rainbow_bands_result (band_position : Q) (timestamp : string) : indicator :=
  (* Determine signal based on band position *)
  let signal := get_signal_from_value "rainbow_bands" band_position in
  {| ind_name := Some "Rainbow Bands";
     ind_value := Some band_position;
     ind_signal := Some signal;
     ind_timestamp := Some timestamp |}.

(** The record [fetch_pi_cycle] computes from the day of the month, when
    the cache holds none for the day. *)
Definition pi_cycle_result (day_of_month : Z) (timestamp : string) : indicator :=
  let synthetic_ratio := (0.5 + inject_Z day_of_month / 100)%Q in
  (* Determine signal based on the ratio *)
  let signal := get_signal_from_value "pi_cycle" synthetic_ratio in
  {| ind_name := Some "Pi Cycle";
     ind_value := Some synthetic_ratio;
     ind_signal := Some signal;
     ind_timestamp := Some timestamp |}.

End RefreshIndicators.

(** ** agents/llm_agent.py: the reply of the model *)

Module LlmAgent.

(** The decoded reply: each of the four required keys is missing ([None]),
    null ([Some None]) or holds a value. *)
Record reply : Type := Reply {
  r_score : option (option Q);
  r_action : option (option string);
  r_confidence : option (option Q);
  r_rationale : option (option string)
}.

(** [if field not in parsed: parsed[field] = None] *)
Definition require {A} (field : option (option A)) : option (option A) :=
  match field with
  | Some v => Some v
  | None => Some None   (* logged as a warning *)
  end.

(** The part of [parse_llm_response] after [json.loads] has succeeded. *)
Definition validate (parsed : reply) : reply :=
  (* Validate required fields *)
  let parsed :=
    {| r_score := require (r_score parsed);
       r_action := require (r_action parsed);
       r_confidence := require (r_confidence parsed);
       r_rationale := require (r_rationale parsed) |} in
  (* Ensure score is in range 0-100 *)
  match r_score parsed with
  | Some (Some score) =>
      {| r_score := Some (Some (max2 0 (min2 100 score)));
         r_action := r_action parsed;
         r_confidence := r_confidence parsed;
         r_rationale := r_rationale parsed |}
  | _ => parsed
  end.

(** [parse_llm_response(response)]; [decoded] is what [json.loads] gives,
    [None] when it raises [JSONDecodeError]. *)
Definition parse_llm_response (decoded : option reply) : reply :=
  match decoded with
  | Some parsed => validate parsed
  | None =>
      (* Fallback to default response *)
      {| r_score := Some (Some 50%Q);
         r_action := Some (Some "HOLD");
         r_confidence := Some (Some 0.5%Q);
         r_rationale := Some (Some "Failed to parse LLM response.") |}
  end.

End LlmAgent.

(** ** scripts/risk_engine.py: the names of the indicator files *)

Module RiskEngineFiles.

(** [load_indicator]: [normalized_name = indicator_name.lower().replace(' ', '_')] *)
Definition normalized_name (indicator_name : string) : string :=
  Text.replace Text.space Text.underscore (Text.lower indicator_name).

(** [load_indicators]: [display_name = dir_name.replace('_', ' ').title()] *)
Definition display_name (dir_name : string) : string :=
  Text.title (Text.replace Text.underscore Text.space dir_name).

End RiskEngineFiles.

(** ** scripts/generate_mock_outputs.py: the action of a mock score *)

Module MockOutputs.

(** The [action = 'HOLD'; if ... elif ...] block of [generate_mock_output]. *)
Definition mock_action (score : Q) : string :=
  let action := "HOLD" in
  if ge score 75 then "STRONG_BUY"
  else if ge score 60 then "BUY"
  else if le score 25 then "STRONG_SELL"
  else if le score 40 then "SELL"
  else action.

End MockOutputs.

(** ** More reference definitions *)

Module Reference.

Import BaseAgent AggregateVotes Spec.

(** The five voter actions, from the most bearish to the most bullish. *)
Definition action_rank (action : string) : Z :=
  if decide (action = "STRONG_SELL") then 0
  else if decide (action = "SELL") then 1
  else if decide (action = "HOLD") then 2
  else if decide (action = "BUY") then 3
  else if decide (action = "STRONG_BUY") then 4
  else 2.

(** The distinct actions of a sequence, in the order of their first
    occurrence. *)
Fixpoint first_seen (actions : list string) : list string :=
  match actions with
  | [] => []
  | a :: rest => a :: filter (λ b, b ≠ a) (first_seen rest)
  end.





End Reference.

(** * Properties *)

(** ** The run-time operations *)

Module PyFacts.

Lemma lt_true (a b : Q) : lt a b = true ↔ (a < b)%Q.
Proof.
  unfold lt. rewrite negb_true_iff, <- not_true_iff_false, Qle_bool_iff.
  split; intros H; lra.
Qed.

Lemma lt_false (a b : Q) : lt a b = false ↔ (b <= a)%Q.
Proof.
  unfold lt. rewrite negb_false_iff, Qle_bool_iff. reflexivity.
Qed.

Lemma le_true (a b : Q) : le a b = true ↔ (a <= b)%Q.
Proof. apply Qle_bool_iff. Qed.

Lemma le_false (a b : Q) : le a b = false ↔ (b < a)%Q.
Proof.
  unfold le. rewrite <- not_true_iff_false, Qle_bool_iff. split; intros H; lra.
Qed.

Lemma ge_true (a b : Q) : ge a b = true ↔ (b <= a)%Q.
Proof. apply le_true. Qed.

Lemma ge_false (a b : Q) : ge a b = false ↔ (a < b)%Q.
Proof. apply le_false. Qed.

Lemma gt_true (a b : Q) : gt a b = true ↔ (b < a)%Q.
Proof. apply lt_true. Qed.

Lemma gt_false (a b : Q) : gt a b = false ↔ (a <= b)%Q.
Proof. apply lt_false. Qed.

Lemma eq_num_true (a b : Q) : eq_num a b = true ↔ (a == b)%Q.
Proof. apply Qeq_bool_iff. Qed.

Lemma eq_num_false (a b : Q) : eq_num a b = false ↔ ¬ (a == b)%Q.
Proof.
  unfold eq_num. rewrite <- not_true_iff_false, Qeq_bool_iff. reflexivity.
Qed.

Lemma bind_Ret {A B} (a : A) (k : A → res B) : mbind k (Ret a) = k a.
Proof. reflexivity. Qed.

(** A quotient by a non-zero number is returned, not raised. *)
Lemma truediv_nonzero (a b : Q) : ¬ (b == 0)%Q → truediv a b = Ret (a / b)%Q.
Proof.
  intros Hb. unfold truediv. apply eq_num_false in Hb. rewrite Hb. reflexivity.
Qed.

Lemma truediv_zero (a b : Q) : (b == 0)%Q → truediv a b = Raise ZeroDivisionError.
Proof.
  intros Hb. unfold truediv. apply eq_num_true in Hb. rewrite Hb. reflexivity.
Qed.

Lemma of_nat_zero_iff (n : nat) : (of_nat n == 0)%Q ↔ n = 0%nat.
Proof.
  unfold of_nat, Qeq. simpl. rewrite Z.mul_1_r. lia.
Qed.

Lemma of_nat_pos (n : nat) : (0 < n)%nat → (0 < of_nat n)%Q.
Proof.
  intros Hn. unfold of_nat, Qlt. simpl. lia.
Qed.

Lemma min2_Qmin (a b : Q) : (min2 a b == Qmin a b)%Q.
Proof.
  unfold min2. destruct (lt b a) eqn:H.
  - apply lt_true in H. rewrite Q.min_r; lra.
  - apply lt_false in H. rewrite Q.min_l; lra.
Qed.

Lemma max2_Qmax (a b : Q) : (max2 a b == Qmax a b)%Q.
Proof.
  unfold max2. destruct (gt b a) eqn:H.
  - apply gt_true in H. rewrite Q.max_r; lra.
  - apply gt_false in H. rewrite Q.max_l; lra.
Qed.

Lemma fold_left_Qplus (xs : list Q) (acc : Q) :
  (fold_left Qplus xs acc == acc + foldr Qplus 0 xs)%Q.
Proof.
  revert acc. induction xs as [|x xs IH]; intros acc; simpl.
  - lra.
  - rewrite IH. lra.
Qed.

(** [sum] adds from the left, starting at 0; the order does not matter. *)
Lemma sum_foldr (xs : list Q) : (sum xs == foldr Qplus 0 xs)%Q.
Proof. unfold sum. rewrite fold_left_Qplus. lra. Qed.

Lemma dict_falsy_true {V} (d : gmap string V) : dict_falsy d = true ↔ d = ∅.
Proof.
  unfold dict_falsy. rewrite Nat.eqb_eq. apply map_size_empty_iff.
Qed.

Lemma dict_falsy_false {V} (d : gmap string V) : dict_falsy d = false ↔ d ≠ ∅.
Proof.
  rewrite <- dict_falsy_true. symmetry. apply not_true_iff_false.
Qed.

Lemma list_falsy_true {A} (l : list A) : list_falsy l = true ↔ l = [].
Proof.
  unfold list_falsy. rewrite Nat.eqb_eq. apply length_zero_iff_nil.
Qed.

Lemma list_falsy_false {A} (l : list A) : list_falsy l = false ↔ l ≠ [].
Proof.
  rewrite <- list_falsy_true. symmetry. apply not_true_iff_false.
Qed.

End PyFacts.

(** ** agents/base_agent.py *)

Module BaseAgentFacts.

Import BaseAgent Spec PyFacts.

(** C7. The voter-level action of a score: STRONG_BUY from 75 up, BUY on
    [60, 75), STRONG_SELL up to 25, SELL on (25, 40], HOLD on (40, 60); at
    the boundaries, 25 is STRONG_SELL, 40 is SELL and 100 is STRONG_BUY. *)
Theorem determine_action_bands (score : Q) :
  ((75 <= score)%Q → determine_action score = "STRONG_BUY")
  ∧ ((60 <= score)%Q ∧ (score < 75)%Q → determine_action score = "BUY")
  ∧ ((score <= 25)%Q → determine_action score = "STRONG_SELL")
  ∧ ((25 < score)%Q ∧ (score <= 40)%Q → determine_action score = "SELL")
  ∧ ((40 < score)%Q ∧ (score < 60)%Q → determine_action score = "HOLD")
  ∧ determine_action 25 = "STRONG_SELL"
  ∧ determine_action 40 = "SELL"
  ∧ determine_action 100 = "STRONG_BUY".
Proof.
  unfold determine_action.
  repeat split; try reflexivity; intros H;
    destruct (ge score 75) eqn:H75; rewrite ?ge_true, ?ge_false in H75; try lra;
    destruct (ge score 60) eqn:H60; rewrite ?ge_true, ?ge_false in H60; try lra;
    destruct (le score 25) eqn:H25; rewrite ?le_true, ?le_false in H25; try lra;
    destruct (le score 40) eqn:H40; rewrite ?le_true, ?le_false in H40; try lra;
    reflexivity.
Qed.

Lemma determine_action_bands_witness :
  determine_action 80 = "STRONG_BUY"
  ∧ determine_action 65 = "BUY"
  ∧ determine_action 20 = "STRONG_SELL"
  ∧ determine_action 35 = "SELL"
  ∧ determine_action 50 = "HOLD".
Proof.
  split; [apply (determine_action_bands 80); lra |].
  split; [apply (determine_action_bands 65); lra |].
  split; [apply (determine_action_bands 20); lra |].
  split; [apply (determine_action_bands 35); lra |].
  apply (determine_action_bands 50); lra.
Defined.

(** *** The composite score *)

Lemma sum_total (field : weighted_signal → Q) (ws : gmap string weighted_signal) :
  (sum (field <$> (map_to_list ws).*2) == total field ws)%Q.
Proof.
  rewrite sum_foldr. unfold total.
  induction (map_to_list ws) as [|[k s] l IH]; simpl.
  - reflexivity.
  - rewrite IH. reflexivity.
Qed.

Lemma clamp_bounds (x : Q) : (0 <= clamp x)%Q ∧ (clamp x <= 100)%Q.
Proof.
  unfold clamp. split.
  - apply Q.le_max_l.
  - apply Q.max_lub; [lra | apply Q.le_min_l].
Qed.

Lemma clamp_Qeq (x y : Q) : (x == y)%Q → (clamp x == clamp y)%Q.
Proof.
  intros Hxy. unfold clamp.
  destruct (Q.min_spec 100 x) as [[? Hx]|[? Hx]],
           (Q.min_spec 100 y) as [[? Hy]|[? Hy]],
           (Q.max_spec 0 (Qmin 100 x)) as [[? Hmx]|[? Hmx]],
           (Q.max_spec 0 (Qmin 100 y)) as [[? Hmy]|[? Hmy]]; lra.
Qed.

Lemma max2_min2_clamp (x : Q) : (max2 0 (min2 100 x) == clamp x)%Q.
Proof.
  unfold clamp. rewrite max2_Qmax.
  pose proof (min2_Qmin 100 x) as Hmin.
  destruct (Q.max_spec 0 (min2 100 x)) as [[? Ha]|[? Ha]],
           (Q.max_spec 0 (Qmin 100 x)) as [[? Hb]|[? Hb]]; lra.
Qed.

(** The composite score is always returned: no division is attempted on an
    empty mapping or a zero total weight. *)
Lemma calculate_composite_score_total (ws : gmap string weighted_signal) :
  ∃ c, calculate_composite_score ws = Ret c
    ∧ (c = 50%Q ∨ (c == clamp (weighted_mean ws))%Q).
Proof.
  unfold calculate_composite_score.
  destruct (dict_falsy ws); [eauto |].
  destruct (eq_num (sum (weight <$> (map_to_list ws).*2)) 0) eqn:Hzero; [eauto |].
  apply eq_num_false in Hzero. rewrite truediv_nonzero by exact Hzero. simpl.
  eexists. split; [reflexivity |]. right.
  rewrite max2_min2_clamp. apply clamp_Qeq. unfold weighted_mean.
  rewrite !sum_total. reflexivity.
Qed.

(** C6. The composite score is returned, never raised, and lies in
    [0, 100]; it is 50 for the empty mapping and for a zero total weight,
    and otherwise the weight-normalized mean
    [sum(weighted_score) / sum(weight)] clamped to [0, 100]. *)
Theorem calculate_composite_score_weighted_mean (ws : gmap string weighted_signal) :
  ∃ c, calculate_composite_score ws = Ret c
    ∧ (0 <= c)%Q ∧ (c <= 100)%Q
    ∧ (ws = ∅ → c = 50%Q)
    ∧ ((total weight ws == 0)%Q → c = 50%Q)
    ∧ (ws ≠ ∅ → ¬ (total weight ws == 0)%Q → (c == clamp (weighted_mean ws))%Q).
Proof.
  destruct (calculate_composite_score_total ws) as (c & Hrun & Hcases).
  exists c. split; [exact Hrun |].
  split; [destruct Hcases as [-> | ->]; [lra | apply clamp_bounds] |].
  split; [destruct Hcases as [-> | ->]; [lra | apply clamp_bounds] |].
  revert Hrun. unfold calculate_composite_score.
  destruct (dict_falsy ws) eqn:Hempty.
  - apply dict_falsy_true in Hempty. intros [= <-]. repeat split; try done.
  - apply dict_falsy_false in Hempty.
    destruct (eq_num (sum (weight <$> (map_to_list ws).*2)) 0) eqn:Hzero.
    + apply eq_num_true in Hzero. rewrite sum_total in Hzero.
      intros [= <-]. repeat split; try done.
    + apply eq_num_false in Hzero.
      rewrite truediv_nonzero by exact Hzero. rewrite bind_Ret.
      intros [= <-]. rewrite sum_total in Hzero.
      split; [done |]. split; [done |]. intros _ _.
      rewrite max2_min2_clamp. apply clamp_Qeq. unfold weighted_mean.
      rewrite !sum_total. reflexivity.
Qed.

Lemma calculate_composite_score_weighted_mean_witness :
  ∃ c, calculate_composite_score Examples.two_signals = Ret c ∧ (c == 50)%Q.
Proof.
  destruct (calculate_composite_score_weighted_mean Examples.two_signals)
    as (c & Hrun & _ & _ & _ & _ & Hmean).
  exists c. split; [exact Hrun |].
  rewrite Hmean.
  - vm_compute. reflexivity.
  - intros Heq. apply (f_equal (lookup "A")) in Heq. vm_compute in Heq. discriminate.
  - vm_compute. discriminate.
Defined.

(** *** The weighted signals *)

Lemma signal_base_score_spec (signal : string) :
  signal_base_score signal = score_of_signal signal.
Proof.
  unfold signal_base_score, score_of_signal.
  destruct (String.eqb_spec signal "bullish"), (String.eqb_spec signal "bearish");
    repeat case_decide; congruence.
Qed.

(** What the loop over the weights leaves under each key. *)
Lemma weigh_all_lookup (inds : gmap string indicator) (w : gmap string Q) (k : string) :
  map_fold (weigh_one inds) ∅ w !! k =
    match w !! k, inds !! k with
    | Some wt, Some ind => Some (make_weighted_signal ind wt)
    | _, _ => None
    end.
Proof.
  revert k.
  apply (map_fold_weak_ind
           (λ r m, ∀ k, r !! k = match m !! k, inds !! k with
                                 | Some wt, Some ind => Some (make_weighted_signal ind wt)
                                 | _, _ => None
                                 end)).
  - intros k. rewrite !lookup_empty. reflexivity.
  - intros i x m r Hi IH k. unfold weigh_one.
    destruct (decide (i = k)) as [<- | Hne].
    + rewrite lookup_insert_eq. destruct (inds !! i) as [ind|] eqn:Hind.
      * rewrite lookup_insert_eq. reflexivity.
      * rewrite IH, Hi. reflexivity.
    + rewrite (lookup_insert_ne m) by exact Hne.
      destruct (inds !! i) as [ind|]; [rewrite lookup_insert_ne by exact Hne |];
        apply IH.
Qed.

(** With declared weights, or without any indicator, the agent is left as
    it was. *)
Lemma weight_signals_declared (self : agent) :
  weights self ≠ ∅ ∨ indicators self = ∅ →
  weight_signals self
    = Ret (map_fold (weigh_one (indicators self)) ∅ (weights self), self).
Proof.
  intros Hcase. unfold weight_signals.
  replace (dict_falsy (weights self) && negb (dict_falsy (indicators self)))
    with false; [reflexivity |].
  symmetry. destruct Hcase as [Hw | Hi].
  - apply dict_falsy_false in Hw. rewrite Hw. reflexivity.
  - apply dict_falsy_true in Hi. rewrite Hi. apply andb_false_r.
Qed.

(** Without declared weights, the equal weights are computed and stored. *)
Lemma weight_signals_undeclared (self : agent) :
  weights self = ∅ → indicators self ≠ ∅ →
  weight_signals self
    = Ret (map_fold (weigh_one (indicators self)) ∅ (equal_weights (indicators self)),
           set_weights self (equal_weights (indicators self))).
Proof.
  intros Hw Hi. unfold weight_signals.
  apply dict_falsy_true in Hw. rewrite Hw.
  pose proof Hi as Hsize. apply dict_falsy_false in Hi. rewrite Hi. simpl.
  rewrite truediv_nonzero; [reflexivity |].
  rewrite of_nat_zero_iff. intros Hz. apply map_size_empty_iff in Hz. contradiction.
Qed.

(** C8. [weight_signals] returns without error.  For each declared weight
    whose indicator is available it emits one entry carrying that weight,
    and none for a weight whose indicator is absent.  Each emitted entry
    has base score 75 for the signal bullish, 25 for bearish and 50 for
    anything else, and its weighted score is the base score times its
    weight, which is the weight the agent holds for that name. *)
Theorem weight_signals_entries (self : agent) :
  ∃ out self', weight_signals self = Ret (out, self')
    ∧ (∀ name w, weights self !! name = Some w →
         match indicators self !! name with
         | Some ind => ∃ ws, out !! name = Some ws ∧ weight ws = w
         | None => out !! name = None
         end)
    ∧ (∀ name ws, out !! name = Some ws →
         ∃ ind, indicators self !! name = Some ind
           ∧ weights self' !! name = Some (weight ws)
           ∧ signal ws = default "neutral" (ind_signal ind)
           ∧ base_score ws = score_of_signal (signal ws)
           ∧ weighted_score ws = (inject_Z (base_score ws) * weight ws)%Q)
    ∧ (weights self ≠ ∅ → weights self' = weights self).
Proof.
  assert (Hentry : ∀ (w : gmap string Q) name ws,
    map_fold (weigh_one (indicators self)) ∅ w !! name = Some ws →
    ∃ ind, indicators self !! name = Some ind
      ∧ w !! name = Some (weight ws)
      ∧ signal ws = default "neutral" (ind_signal ind)
      ∧ base_score ws = score_of_signal (signal ws)
      ∧ weighted_score ws = (inject_Z (base_score ws) * weight ws)%Q).
  { intros w name ws Hout. rewrite weigh_all_lookup in Hout.
    destruct (w !! name) as [wt|]; [| discriminate].
    destruct (indicators self !! name) as [ind|]; [| discriminate].
    injection Hout as <-. exists ind. simpl.
    rewrite signal_base_score_spec. auto. }
  destruct (dict_falsy (weights self)) eqn:Hw;
    [destruct (dict_falsy (indicators self)) eqn:Hi |].
  - (* no weights, no indicators *)
    apply dict_falsy_true in Hi.
    rewrite weight_signals_declared by (right; exact Hi).
    eexists _, _. split; [reflexivity |]. split; [| split].
    + intros name w Hname. apply dict_falsy_true in Hw.
      rewrite Hw, lookup_empty in Hname. discriminate.
    + apply Hentry.
    + reflexivity.
  - (* no weights, some indicators: equal weighting *)
    apply dict_falsy_true in Hw. apply dict_falsy_false in Hi.
    rewrite weight_signals_undeclared by assumption.
    eexists _, _. split; [reflexivity |]. split; [| split].
    + intros name w Hname. rewrite Hw, lookup_empty in Hname. discriminate.
    + apply Hentry.
    + intros Hne. contradiction.
  - (* declared weights *)
    apply dict_falsy_false in Hw.
    rewrite weight_signals_declared by (left; exact Hw).
    eexists _, _. split; [reflexivity |]. split; [| split].
    + intros name w Hname. rewrite weigh_all_lookup, Hname.
      destruct (indicators self !! name) as [ind|]; [| reflexivity].
      eexists. split; reflexivity.
    + apply Hentry.
    + reflexivity.
Qed.

Lemma weight_signals_entries_witness :
  ∃ out self', weight_signals Examples.sample_agent = Ret (out, self')
    ∧ (∃ ws, out !! "CBBI" = Some ws ∧ weight ws = 0.4%Q)
    ∧ out !! "MVRV" = None
    ∧ weights self' = weights Examples.sample_agent.
Proof.
  destruct (weight_signals_entries Examples.sample_agent)
    as (out & self' & Hrun & Hdeclared & _ & Hsame).
  exists out, self'. split; [exact Hrun |]. split; [| split].
  - apply (Hdeclared "CBBI" 0.4%Q). vm_compute. reflexivity.
  - apply (Hdeclared "MVRV" 0.2%Q). vm_compute. reflexivity.
  - apply Hsame. intros Hempty. apply (f_equal (lookup "CBBI")) in Hempty.
    vm_compute in Hempty. discriminate.
Defined.

(** C9, as the code has it.  The fallback replaces the agent's weights: an
    agent without declared weights holds the equal weights after the call. *)
Lemma weight_signals_fallback_replaces_weights :
  ∃ out self', weight_signals Examples.unweighted_agent = Ret (out, self')
    ∧ weights Examples.unweighted_agent = ∅
    ∧ indicators Examples.unweighted_agent ≠ ∅
    ∧ weights self' = {[ "CBBI" := (1 # 2)%Q; "Pi Cycle" := (1 # 2)%Q ]}
    ∧ weights self' ≠ weights Examples.unweighted_agent.
Proof.
  eexists _, _. split; [vm_compute; reflexivity |].
  split; [reflexivity |]. split; [| split].
  - intros Hempty. apply (f_equal (lookup "CBBI")) in Hempty.
    vm_compute in Hempty. discriminate.
  - vm_compute. reflexivity.
  - intros Heq. apply (f_equal (lookup "CBBI")) in Heq.
    vm_compute in Heq. discriminate.
Qed.

(** C9, amended.  When the agent declares no weights and an indicator is
    available, [weight_signals] computes with the equal weights
    [1/count(indicators)] over every available indicator and stores them as
    the agent's weights; the specification, the indicators, the name and
    the type of the agent stay as they were. *)
Theorem weight_signals_fallback_stores_equal_weights (self : agent) :
  weights self = ∅ → indicators self ≠ ∅ →
  ∃ out self', weight_signals self = Ret (out, self')
    ∧ weights self' = equal_weights (indicators self)
    ∧ (∀ name, weights self' !! name
         = (λ _, (1 / of_nat (size (indicators self)))%Q) <$> indicators self !! name)
    ∧ (∀ name, out !! name
         = (λ ind, make_weighted_signal ind (1 / of_nat (size (indicators self)))%Q)
             <$> indicators self !! name)
    ∧ spec self' = spec self
    ∧ indicators self' = indicators self
    ∧ name self' = name self
    ∧ type self' = type self.
Proof.
  intros Hw Hi. rewrite weight_signals_undeclared by assumption.
  eexists _, _. split; [reflexivity |]. simpl.
  split; [reflexivity |]. split; [| split].
  - intros k. unfold equal_weights. apply lookup_fmap.
  - intros k. rewrite weigh_all_lookup. unfold equal_weights.
    rewrite lookup_fmap. destruct (indicators self !! k); reflexivity.
  - repeat split.
Qed.

Lemma weight_signals_fallback_stores_equal_weights_witness :
  ∃ out self', weight_signals Examples.unweighted_agent = Ret (out, self')
    ∧ weights self' = equal_weights (indicators Examples.unweighted_agent)
    ∧ spec self' = spec Examples.unweighted_agent.
Proof.
  destruct (weight_signals_fallback_stores_equal_weights Examples.unweighted_agent)
    as (out & self' & Hrun & Hweights & _ & _ & Hspec & _).
  - reflexivity.
  - intros Hempty. apply (f_equal (lookup "CBBI")) in Hempty.
    vm_compute in Hempty. discriminate.
  - exists out, self'. auto.
Defined.

End BaseAgentFacts.

(** ** scripts/aggregate_votes.py *)

Module AggregateVotesFacts.

Import AggregateVotes Spec PyFacts.

(** *** The consensus score *)

Lemma calculate_consensus_pct_nonempty (agent_outputs : list agent_output) :
  agent_outputs ≠ [] →
  ∃ c, calculate_consensus_pct agent_outputs = Ret c
    ∧ (c == mean_score agent_outputs)%Q.
Proof.
  intros Hne. unfold calculate_consensus_pct.
  apply list_falsy_false in Hne as Hfalsy. rewrite Hfalsy.
  rewrite truediv_nonzero.
  - eexists. split; [reflexivity |]. unfold mean_score.
    apply Qdiv_comp; [| reflexivity].
    rewrite sum_foldr. clear. induction agent_outputs as [|o l IH]; simpl.
    + reflexivity.
    + rewrite IH. reflexivity.
  - rewrite of_nat_zero_iff. intros Hlen.
    apply length_zero_iff_nil in Hlen. contradiction.
Qed.

(** C3, as the code has it.  The score of no votes is the neutral default:
    the call returns 50 and raises nothing. *)
Lemma calculate_consensus_pct_empty_returns :
  calculate_consensus_pct [] = Ret 50%Q
  ∧ ¬ raises (calculate_consensus_pct []).
Proof.
  split; [reflexivity |]. simpl. tauto.
Qed.

(** C3, amended.  [calculate_consensus_pct] never fails: it returns the
    neutral default 50 for no votes and the mean of the scores otherwise.
    Zero votes are refused upstream, by [main], which exits with status 1
    and aggregates nothing. *)
Theorem calculate_consensus_pct_total (agent_outputs : list agent_output) :
  (∃ c, calculate_consensus_pct agent_outputs = Ret c
     ∧ match agent_outputs with
       | [] => c = 50%Q
       | _ :: _ => (c == mean_score agent_outputs)%Q
       end)
  ∧ ∀ today now config, main_gate today now [] config = (1%Z, None).
Proof.
  split; [| reflexivity].
  destruct agent_outputs as [|o l].
  - exists 50%Q. split; reflexivity.
  - apply calculate_consensus_pct_nonempty. discriminate.
Qed.

(** The consensus score of the voters with scores 80, 60, 40 is 60. *)
Lemma calculate_consensus_pct_three_votes :
  ∃ c, calculate_consensus_pct Examples.three_votes = Ret c ∧ (c == 60)%Q.
Proof.
  eexists. split; [vm_compute; reflexivity |]. vm_compute. reflexivity.
Qed.

(** *** The action of a consensus score *)

(** What the three tests of the loop amount to: a band with a max is taken
    as soon as the score is below the max, whatever its min. *)
Lemma scan_consensus_map_step (consensus_pct : Q) (mapping : band) (rest : list band) :
  scan_consensus_map consensus_pct (mapping :: rest) =
    match b_max mapping, b_min mapping with
    | Some mx, _ =>
        if lt consensus_pct mx then Some (mapping_result mapping)
        else scan_consensus_map consensus_pct rest
    | None, Some mn =>
        if ge consensus_pct mn then Some (mapping_result mapping)
        else scan_consensus_map consensus_pct rest
    | None, None => scan_consensus_map consensus_pct rest
    end.
Proof.
  simpl. destruct (b_max mapping) as [mx|], (b_min mapping) as [mn|]; simpl.
  - destruct (lt consensus_pct mx); [reflexivity |].
    rewrite andb_false_r. reflexivity.
  - destruct (lt consensus_pct mx); reflexivity.
  - destruct (ge consensus_pct mn); reflexivity.
  - reflexivity.
Qed.

(** The scan follows the half-open rule on every table in which a band
    with both bounds is only ever reached by scores at or above its min. *)
Lemma scan_consensus_map_half_open (consensus_pct : Q) (table : list band) :
  (∀ b mn mx, b ∈ table → b_min b = Some mn → b_max b = Some mx →
     (consensus_pct < mx)%Q → (mn <= consensus_pct)%Q) →
  scan_consensus_map consensus_pct table
    = mapping_result <$> first_match consensus_pct table.
Proof.
  induction table as [|b table IH]; intros Hmin; [reflexivity |].
  rewrite scan_consensus_map_step.
  rewrite IH by (intros; eapply Hmin; eauto using list_elem_of_further).
  change (first_match consensus_pct (b :: table))
    with (if bool_decide (band_matches consensus_pct b)
          then Some b else first_match consensus_pct table).
  specialize (Hmin b).
  destruct (decide (band_matches consensus_pct b)) as [Hm | Hm].
  - rewrite bool_decide_eq_true_2 by exact Hm. unfold band_matches in Hm.
    destruct (b_max b) as [mx|], (b_min b) as [mn|]; try tauto.
    + destruct Hm as [_ Hlt]. apply lt_true in Hlt. rewrite Hlt. reflexivity.
    + apply lt_true in Hm. rewrite Hm. reflexivity.
    + apply ge_true in Hm. rewrite Hm. reflexivity.
  - rewrite bool_decide_eq_false_2 by exact Hm. unfold band_matches in Hm.
    destruct (b_max b) as [mx|], (b_min b) as [mn|]; try reflexivity.
    + destruct (lt consensus_pct mx) eqn:Hlt; [| reflexivity].
      apply lt_true in Hlt. exfalso. apply Hm. split; [| exact Hlt].
      eapply Hmin; eauto. apply list_elem_of_here.
    + destruct (lt consensus_pct mx) eqn:Hlt; [| reflexivity].
      apply lt_true in Hlt. contradiction.
    + destruct (ge consensus_pct mn) eqn:Hge; [| reflexivity].
      apply ge_true in Hge. contradiction.
Qed.


(** C1, on the code.  With the band [40, 60) listed before the band
    below 40, the score 30 is below the min of the first band, which
    therefore does not match under the half-open rule; the first band that
    does is de-risk.  The code returns hold. *)
Theorem map_consensus_to_action_ignores_min :
  map_consensus_to_action 30 Examples.hold_first_table
    = {| am_action := "hold"; am_emoji := emoji_yellow |}
  ∧ ¬ band_matches 30 Examples.hold_band
  ∧ first_match 30 [Examples.hold_band; Examples.de_risk_band; Examples.buy_band]
    = Some Examples.de_risk_band
  ∧ mapping_result Examples.de_risk_band
    = {| am_action := "de-risk"; am_emoji := AggregateVotes.emoji_red |}.
Proof.
  split; [vm_compute; reflexivity |].
  split; [unfold band_matches; simpl; lra |].
  split; vm_compute; reflexivity.
Qed.

(** *** The distribution of the votes *)

Lemma odict_get_set {V} (d : odict V) (k k' : string) (v : V) :
  odict_get (odict_set d k v) k' = if decide (k = k') then Some v else odict_get d k'.
Proof.
  induction d as [|[k0 v0] d IH]; simpl.
  - destruct (String.eqb_spec k k'); case_decide; congruence.
  - destruct (String.eqb_spec k0 k) as [-> | Hne]; simpl.
    + destruct (String.eqb_spec k k'); case_decide; congruence.
    + destruct (String.eqb_spec k0 k') as [-> | Hne'].
      * rewrite decide_False by congruence. reflexivity.
      * apply IH.
Qed.

Lemma odict_set_keys {V} (d : odict V) (k : string) (v : V) :
  (odict_set d k v).*1 = if decide (k ∈ d.*1) then d.*1 else d.*1 ++ [k].
Proof.
  induction d as [|[k0 v0] d IH]; [reflexivity |].
  cbn [odict_set].
  destruct (String.eqb_spec k0 k) as [-> | Hne]; rewrite !fmap_cons; cbn [fst].
  - rewrite decide_True by apply list_elem_of_here. reflexivity.
  - rewrite IH. destruct (decide (k ∈ d.*1)) as [Hin | Hnin].
    + rewrite decide_True by (apply list_elem_of_further; exact Hin). reflexivity.
    + rewrite decide_False; [reflexivity |].
      rewrite elem_of_cons. intros [-> | Hin]; contradiction.
Qed.

Lemma odict_set_NoDup {V} (d : odict V) (k : string) (v : V) :
  NoDup d.*1 → NoDup (odict_set d k v).*1.
Proof.
  intros Hnd. rewrite odict_set_keys. case_decide as Hin; [exact Hnd |].
  apply NoDup_app. split; [exact Hnd |]. split; [| apply NoDup_singleton].
  intros x Hx Hk. apply list_elem_of_singleton in Hk as ->. contradiction.
Qed.

Lemma odict_get_elem {V} (d : odict V) (k : string) (v : V) :
  odict_get d k = Some v → (k, v) ∈ d.
Proof.
  induction d as [|[k0 v0] d IH]; simpl; [discriminate |].
  destruct (String.eqb_spec k0 k) as [-> | Hne].
  - intros [= ->]. apply list_elem_of_here.
  - intros Hget. apply list_elem_of_further, IH, Hget.
Qed.

Lemma odict_elem_get {V} (d : odict V) (k : string) (v : V) :
  NoDup d.*1 → (k, v) ∈ d → odict_get d k = Some v.
Proof.
  induction d as [|[k0 v0] d IH]; intros Hnd Hin.
  - apply elem_of_nil in Hin. contradiction.
  - simpl in Hnd. apply NoDup_cons in Hnd as [Hk0 Hnd].
    apply elem_of_cons in Hin as [Heq | Hin]; simpl.
    + injection Heq as -> ->. rewrite String.eqb_refl. reflexivity.
    + destruct (String.eqb_spec k0 k) as [-> | Hne]; [| apply IH; assumption].
      exfalso. apply Hk0. apply (list_elem_of_fmap_2 fst) in Hin. exact Hin.
Qed.

Lemma votes_for_cons (a : string) (o : agent_output) (outs : list agent_output) :
  votes_for a (o :: outs)
    = ((if decide (action_of o = a) then 1 else 0) + votes_for a outs)%nat.
Proof.
  unfold votes_for. rewrite filter_cons. case_decide; reflexivity.
Qed.

(** The counter after the loop, from any counter before it. *)
Lemma count_votes_get (outs : list agent_output) (d : odict nat) (a : string) :
  odict_get (fold_left count_vote outs d) a =
    match odict_get d a with
    | Some m => Some (m + votes_for a outs)%nat
    | None => match votes_for a outs with O => None | S n => Some (S n) end
    end.
Proof.
  revert d. induction outs as [|o outs IH]; intros d; simpl.
  - unfold votes_for. simpl. destruct (odict_get d a); [f_equal; lia | reflexivity].
  - rewrite IH, votes_for_cons. unfold count_vote.
    rewrite odict_get_set. fold (action_of o).
    destruct (decide (action_of o = a)) as [Heq | Hne].
    + rewrite Heq. destruct (odict_get d a); simpl; f_equal; lia.
    + destruct (odict_get d a); reflexivity.
Qed.

Lemma count_votes_NoDup (outs : list agent_output) (d : odict nat) :
  NoDup d.*1 → NoDup (fold_left count_vote outs d).*1.
Proof.
  revert d. induction outs as [|o outs IH]; intros d Hnd; simpl; [exact Hnd |].
  apply IH. unfold count_vote. apply odict_set_NoDup, Hnd.
Qed.

(** The counter holds, for each action, the number of votes that carry it,
    and no entry for an action without votes. *)
Lemma count_actions_get (outs : list agent_output) (a : string) :
  odict_get (count_actions outs) a =
    match votes_for a outs with O => None | S n => Some (S n) end.
Proof. unfold count_actions. rewrite count_votes_get. reflexivity. Qed.

Lemma count_actions_NoDup (outs : list agent_output) :
  NoDup (count_actions outs).*1.
Proof. apply count_votes_NoDup. simpl. apply NoDup_nil. exact I. Qed.

(** The scan that [max] performs: the result is the start or a later item,
    and no item has a greater key. *)
Lemma fold_max_spec {A} (key : A → nat) (xs : list A) (x : A) :
  let best := fold_left (λ best y, if Nat.ltb (key best) (key y) then y else best) xs x in
  (best = x ∨ best ∈ xs)
  ∧ (key x ≤ key best)%nat
  ∧ ∀ y, y ∈ xs → (key y ≤ key best)%nat.
Proof.
  revert x. induction xs as [|y xs IH]; intros x; simpl.
  - split; [left; reflexivity |]. split; [lia |].
    intros y Hy. apply elem_of_nil in Hy. contradiction.
  - destruct (IH (if Nat.ltb (key x) (key y) then y else x)) as (Hin & Hge & Hall).
    destruct (Nat.ltb_spec (key x) (key y)) as [Hlt | Hle].
    + split; [| split].
      * right. destruct Hin as [-> | Hin];
          [apply list_elem_of_here | apply list_elem_of_further, Hin].
      * lia.
      * intros z Hz. apply elem_of_cons in Hz as [-> | Hz]; [exact Hge | apply Hall, Hz].
    + split; [| split].
      * destruct Hin as [-> | Hin]; [left; reflexivity |].
        right. apply list_elem_of_further, Hin.
      * exact Hge.
      * intros z Hz. apply elem_of_cons in Hz as [-> | Hz]; [lia | apply Hall, Hz].
Qed.

Lemma max_by_spec {A} (key : A → nat) (xs : list A) :
  xs ≠ [] →
  ∃ best, max_by key xs = Ret best ∧ best ∈ xs ∧ ∀ y, y ∈ xs → (key y ≤ key best)%nat.
Proof.
  destruct xs as [|x xs]; [contradiction |]. intros _. simpl.
  eexists. split; [reflexivity |].
  destruct (fold_max_spec key xs x) as (Hin & Hge & Hall).
  split.
  - destruct Hin as [-> | Hin]; [apply list_elem_of_here | apply list_elem_of_further, Hin].
  - intros y Hy. apply elem_of_cons in Hy as [-> | Hy]; [exact Hge | apply Hall, Hy].
Qed.

Lemma max_nat_spec (xs : list nat) :
  xs ≠ [] →
  ∃ best, max_nat xs = Ret best ∧ best ∈ xs ∧ ∀ y, y ∈ xs → (y ≤ best)%nat.
Proof. apply (max_by_spec (λ n, n)). Qed.

Lemma count_actions_nonempty (o : agent_output) (outs : list agent_output) :
  count_actions (o :: outs) ≠ [].
Proof.
  intros Hnil.
  pose proof (count_actions_get (o :: outs) (action_of o)) as Hget.
  rewrite Hnil, votes_for_cons, decide_True in Hget by reflexivity.
  discriminate.
Qed.

(** C5, as the code has it.  For a single voter the distribution is empty
    and there is no majority action, although one vote carries BUY. *)
Lemma analyze_agent_distribution_single_vote :
  analyze_agent_distribution [Examples.vote "BUY" 80]
    = Ret {| distribution := []; agreement_level := 1%Q; majority_action := None |}
  ∧ votes_for "BUY" [Examples.vote "BUY" 80] = 1%nat.
Proof. split; reflexivity. Qed.

(** C5, amended.  For at most one vote the analysis returns the empty
    distribution, the agreement level 1 and no majority action.  For two
    votes or more it returns the distribution that maps each action (HOLD
    for a vote without one) to the number of votes carrying it, a majority
    action with the highest count, and the agreement level equal to that
    count divided by the number of voters. *)
Theorem analyze_agent_distribution_counts (agent_outputs : list agent_output) :
  ((length agent_outputs ≤ 1)%nat →
     analyze_agent_distribution agent_outputs
       = Ret {| distribution := []; agreement_level := 1%Q; majority_action := None |})
  ∧ ((2 ≤ length agent_outputs)%nat →
     ∃ r top,
       analyze_agent_distribution agent_outputs = Ret r
       ∧ (∀ a, odict_get (distribution r) a
               = match votes_for a agent_outputs with O => None | S n => Some (S n) end)
       ∧ NoDup (distribution r).*1
       ∧ majority_action r = Some top
       ∧ (0 < votes_for top agent_outputs)%nat
       ∧ (∀ a, (votes_for a agent_outputs ≤ votes_for top agent_outputs)%nat)
       ∧ (agreement_level r
            == of_nat (votes_for top agent_outputs) / of_nat (length agent_outputs))%Q).
Proof.
  unfold analyze_agent_distribution. split; intros Hlen.
  - apply Nat.leb_le in Hlen. rewrite Hlen. reflexivity.
  - replace (length agent_outputs <=? 1) with false
      by (symmetry; apply Nat.leb_gt; lia).
    replace (0 <? length agent_outputs) with true
      by (symmetry; apply Nat.ltb_lt; lia).
    pose proof (count_actions_get agent_outputs) as Hget.
    pose proof (count_actions_NoDup agent_outputs) as Hnd.
    assert (Hne : count_actions agent_outputs ≠ []).
    { destruct agent_outputs as [|o outs]; [simpl in Hlen; lia |].
      apply count_actions_nonempty. }
    remember (count_actions agent_outputs) as d eqn:Hd. clear Hd.
    apply list_falsy_false in Hne as Hfalsy. rewrite Hfalsy. simpl negb.
    (* the greatest count *)
    destruct (max_nat_spec (d.*2)) as (c' & Hmax & Hc'in & Hc'max).
    { intros Hnil. apply fmap_nil_inv in Hnil. contradiction. }
    rewrite Hmax, bind_Ret.
    rewrite truediv_nonzero, bind_Ret
      by (rewrite of_nat_zero_iff; lia).
    (* the first entry with the greatest count *)
    destruct (max_by_spec snd d Hne) as ([top c] & Htop & Htopin & Htopmax).
    rewrite Htop, !bind_Ret. simpl in Htopmax.
    assert (Hc : c' = c).
    { apply Nat.le_antisymm.
      - apply list_elem_of_fmap in Hc'in as ([k v] & -> & Hkv).
        apply (Htopmax _ Hkv).
      - apply Hc'max. apply (list_elem_of_fmap_2 snd) in Htopin. exact Htopin. }
    subst c'.
    assert (Hcount : c = votes_for top agent_outputs ∧ (0 < c)%nat).
    { apply odict_elem_get in Htopin; [| exact Hnd].
      rewrite Hget in Htopin.
      destruct (votes_for top agent_outputs); [discriminate |].
      injection Htopin as <-. split; [reflexivity | lia]. }
    destruct Hcount as [-> Hpos].
    eexists _, top. split; [reflexivity |]. simpl.
    split; [exact Hget |]. split; [exact Hnd |]. split; [reflexivity |].
    split; [exact Hpos |]. split; [| reflexivity].
    intros a. destruct (votes_for a agent_outputs) as [|n] eqn:Hn; [lia |].
    specialize (Hget a). rewrite Hn in Hget.
    apply odict_get_elem in Hget. apply (Htopmax _ Hget).
Qed.

Lemma analyze_agent_distribution_counts_witness :
  analyze_agent_distribution []
    = Ret {| distribution := []; agreement_level := 1%Q; majority_action := None |}
  ∧ ∃ r top,
      analyze_agent_distribution Examples.three_votes = Ret r
      ∧ odict_get (distribution r) "BUY" = Some 2%nat
      ∧ odict_get (distribution r) "HOLD" = Some 1%nat
      ∧ majority_action r = Some top
      ∧ (agreement_level r
           == of_nat (votes_for top Examples.three_votes) / 3)%Q.
Proof.
  split.
  - apply (analyze_agent_distribution_counts []). simpl. lia.
  - destruct (analyze_agent_distribution_counts Examples.three_votes)
      as [_ Hmany].
    destruct Hmany as (r & top & Hrun & Hget & _ & Hmaj & _ & _ & Hlevel);
      [simpl; lia |].
    exists r, top. split; [exact Hrun |].
    split; [apply (Hget "BUY") |]. split; [apply (Hget "HOLD") |].
    split; [exact Hmaj | exact Hlevel].
Defined.

(** The example of the specification: BUY, BUY, HOLD. *)
Lemma analyze_agent_distribution_three_votes :
  analyze_agent_distribution Examples.three_votes
    = Ret {| distribution := [("BUY", 2%nat); ("HOLD", 1%nat)];
             agreement_level := (2 # 3)%Q;
             majority_action := Some "BUY" |}.
Proof. vm_compute. reflexivity. Qed.

End AggregateVotesFacts.

(** ** scripts/risk_engine.py *)

Module RiskEngineFacts.

Import RiskEngine Spec PyFacts.

Section Facts.

Variable format_2f : Q → string.
Variable format_plain : Q → string.

(** *** The three checks *)

Lemma check_cbbi_risk_meets :
  check_meets (check_cbbi_risk format_2f) "cbbi_high" 0.8.
Proof.
  intros ind. unfold check_cbbi_risk, lacks_value, getitem_value, expected_of.
  destruct (ind_value ind) as [v|]; [| eauto].
  rewrite bind_Ret. destruct (ge v 0.8) eqn:Hge.
  - apply ge_true in Hge. rewrite decide_True by exact Hge. eauto.
  - apply ge_false in Hge. rewrite decide_False by lra. eauto.
Qed.

Lemma check_rainbow_risk_meets :
  check_meets (check_rainbow_risk format_plain) "rainbow_top" 7.
Proof.
  intros ind. unfold check_rainbow_risk, lacks_value, getitem_value, expected_of.
  destruct (ind_value ind) as [v|]; [| eauto].
  rewrite bind_Ret. destruct (ge v 7) eqn:Hge.
  - apply ge_true in Hge. rewrite decide_True by exact Hge. eauto.
  - apply ge_false in Hge. rewrite decide_False by lra. eauto.
Qed.

Lemma check_pi_cycle_risk_meets :
  check_meets (check_pi_cycle_risk format_2f) "pi_cycle_top" 0.95.
Proof.
  intros ind. unfold check_pi_cycle_risk, lacks_value, getitem_value, expected_of.
  destruct (ind_value ind) as [v|]; [| eauto].
  rewrite bind_Ret. destruct (ge v 0.95) eqn:Hge.
  - apply ge_true in Hge. rewrite decide_True by exact Hge. eauto.
  - apply ge_false in Hge. rewrite decide_False by lra. eauto.
Qed.

(** C10. On an indicator record without a value each of the three checks
    returns no flag and raises nothing. *)
Theorem risk_checks_without_value (ind : indicator) :
  ind_value ind = None →
  check_cbbi_risk format_2f ind = Ret None
  ∧ check_rainbow_risk format_plain ind = Ret None
  ∧ check_pi_cycle_risk format_2f ind = Ret None.
Proof.
  intros Hvalue.
  unfold check_cbbi_risk, check_rainbow_risk, check_pi_cycle_risk, lacks_value.
  rewrite Hvalue. repeat split.
Qed.

(** *** Collecting the flags *)

Lemma run_check_spec (key flag : string) (threshold : Q)
    (check : indicator → res (option risk_flag))
    (inds : gmap string indicator)
    (flags : list risk_flag) (forced : option string) :
  check_meets check flag threshold →
  ∃ new,
    run_check key check inds (flags, forced)
      = Ret (flags ++ new, if list_falsy new then forced else Some "de-risk")
    ∧ flag_summary <$> new = expected_flag inds key flag threshold.
Proof.
  intros Hcheck. unfold run_check, expected_flag.
  destruct (inds !! key) as [ind|].
  - destruct (Hcheck ind) as (r & -> & Hr). rewrite bind_Ret.
    destruct r as [f|].
    + exists [f]. split; [reflexivity | exact Hr].
    + exists []. rewrite app_nil_r. split; [reflexivity | exact Hr].
  - exists []. rewrite app_nil_r. split; reflexivity.
Qed.

(** The flags are collected in the order CBBI, Rainbow Bands, Pi-Cycle, one
    per check that fires; the forced action is set exactly when there is a
    flag.  Nothing is raised. *)
Lemma collect_risk_flags_spec (inds : gmap string indicator) :
  ∃ flags,
    collect_risk_flags format_2f format_plain inds
      = Ret (flags, if list_falsy flags then None else Some "de-risk")
    ∧ flag_summary <$> flags = expected_flags inds.
Proof.
  unfold collect_risk_flags, expected_flags.
  destruct (run_check_spec "Cbbi" _ _ _ inds [] None check_cbbi_risk_meets)
    as (n1 & -> & H1).
  rewrite bind_Ret.
  destruct (run_check_spec "Rainbow Bands" _ _ _ inds ([] ++ n1)
              (if list_falsy n1 then None else Some "de-risk")
              check_rainbow_risk_meets)
    as (n2 & -> & H2).
  rewrite bind_Ret.
  destruct (run_check_spec "Pi Cycle" _ _ _ inds (([] ++ n1) ++ n2)
              (if list_falsy n2 then if list_falsy n1 then None else Some "de-risk"
               else Some "de-risk")
              check_pi_cycle_risk_meets)
    as (n3 & -> & H3).
  exists (n1 ++ n2 ++ n3). split.
  - rewrite app_nil_l, <- app_assoc. f_equal. f_equal.
    destruct n1, n2, n3; reflexivity.
  - rewrite !fmap_app, H1, H2, H3. reflexivity.
Qed.

(** The result of [apply_risk_overrides], by whether a flag was raised. *)
Lemma apply_risk_overrides_run (config : action_map) (c : consensus)
    (inds : gmap string indicator) :
  ∃ flags,
    flag_summary <$> flags = expected_flags inds
    ∧ apply_risk_overrides format_2f format_plain config c inds
      = Ret (match flags with
             | [] => set_risk_override (set_risk_flags c []) false
             | _ :: _ =>
                 set_risk_override
                   (set_emoji
                      (set_action
                         (set_original_action (set_risk_flags c flags)
                            (default "hold" (c_action c)))
                         "de-risk")
                      (default RiskEngine.emoji_red
                         (b_emoji (find_action_mapping config "de-risk"))))
                   true
             end).
Proof.
  destruct (collect_risk_flags_spec inds) as (flags & Hrun & Hflags).
  exists flags. split; [exact Hflags |].
  unfold apply_risk_overrides. rewrite Hrun, bind_Ret.
  destruct flags; reflexivity.
Qed.

(** C4. [apply_risk_overrides] returns a consensus whose risk flags are one
    flag per hard check that fires (CBBI from 0.8, Rainbow Bands from 7,
    Pi-Cycle from 0.95, each on its own indicator).  With a flag, the
    previous action is recorded as the original action, the action becomes
    de-risk and the override is marked; without one, the override is marked
    false and nothing else changes.  The agent votes and the distribution
    are the same in every case. *)
Theorem apply_risk_overrides_flags (config : action_map) (c : consensus)
    (inds : gmap string indicator) :
  ∃ c' flags,
    apply_risk_overrides format_2f format_plain config c inds = Ret c'
    ∧ c_risk_flags c' = Some flags
    ∧ flag_summary <$> flags = expected_flags inds
    ∧ (flags ≠ [] →
         c_original_action c' = Some (default "hold" (c_action c))
         ∧ c_action c' = Some "de-risk"
         ∧ c_risk_override c' = Some true)
    ∧ (flags = [] →
         c_risk_override c' = Some false
         ∧ c_action c' = c_action c
         ∧ c_emoji c' = c_emoji c
         ∧ c_original_action c' = c_original_action c)
    ∧ c_agent_votes c' = c_agent_votes c
    ∧ c_distribution c' = c_distribution c
    ∧ c_date c' = c_date c
    ∧ c_timestamp c' = c_timestamp c
    ∧ c_score c' = c_score c.
Proof.
  destruct (apply_risk_overrides_run config c inds) as (flags & Hflags & Hrun).
  eexists _, flags. split; [exact Hrun |].
  destruct flags as [|f flags]; simpl.
  - split; [reflexivity |]. split; [exact Hflags |].
    split; [intros Hne; contradiction |]. repeat split.
  - split; [reflexivity |]. split; [exact Hflags |].
    split; [intros _; repeat split |].
    split; [intros Hnil; discriminate |]. repeat split.
Qed.

(** C2, amended.  A second pass over the output of the first, with the same
    indicators, returns the same action, override mark, risk flags, emoji
    and all other fields.  The whole record is the same when no flag is
    raised; when a flag is raised, only the original action differs: the
    second pass records the action of the first, de-risk. *)
Theorem apply_risk_overrides_twice (config : action_map) (c : consensus)
    (inds : gmap string indicator) :
  ∃ c1 c2 flags,
    apply_risk_overrides format_2f format_plain config c inds = Ret c1
    ∧ apply_risk_overrides format_2f format_plain config c1 inds = Ret c2
    ∧ c_risk_flags c1 = Some flags
    ∧ c_risk_flags c2 = Some flags
    ∧ c_action c2 = c_action c1
    ∧ c_risk_override c2 = c_risk_override c1
    ∧ c_emoji c2 = c_emoji c1
    ∧ c_agent_votes c2 = c_agent_votes c1
    ∧ c_distribution c2 = c_distribution c1
    ∧ c_date c2 = c_date c1
    ∧ c_timestamp c2 = c_timestamp c1
    ∧ c_score c2 = c_score c1
    ∧ match flags with
      | [] => c2 = c1
      | _ :: _ => c2 = set_original_action c1 "de-risk"
      end.
Proof.
  destruct (collect_risk_flags_spec inds) as (flags & Hrun & _).
  unfold apply_risk_overrides. rewrite Hrun, !bind_Ret.
  destruct flags as [|f flags]; simpl.
  - eexists _, _, []. repeat split.
  - eexists _, _, (f :: flags). repeat split.
Qed.

End Facts.

Lemma risk_checks_without_value_witness :
  check_cbbi_risk Examples.show_Q Examples.ind_without_value = Ret None
  ∧ check_rainbow_risk Examples.show_Q Examples.ind_without_value = Ret None
  ∧ check_pi_cycle_risk Examples.show_Q Examples.ind_without_value = Ret None.
Proof.
  apply (risk_checks_without_value Examples.show_Q Examples.show_Q
           Examples.ind_without_value).
  reflexivity.
Defined.

(** The two scenarios of the specification: a CBBI of 0.85 overrides the
    action buy; indicators below every threshold change nothing. *)
Lemma apply_risk_overrides_flags_witness :
  (∃ c' flags,
     apply_risk_overrides Examples.show_Q Examples.show_Q
       AggregateVotes.default_config Examples.buy_consensus Examples.hot_indicators
       = Ret c'
     ∧ c_risk_flags c' = Some flags
     ∧ rf_flag <$> flags = ["cbbi_high"]
     ∧ c_action c' = Some "de-risk"
     ∧ c_original_action c' = Some "buy"
     ∧ c_risk_override c' = Some true)
  ∧ (∃ c',
       apply_risk_overrides Examples.show_Q Examples.show_Q
         AggregateVotes.default_config Examples.buy_consensus Examples.calm_indicators
         = Ret c'
       ∧ c_risk_flags c' = Some []
       ∧ c_action c' = Some "buy"
       ∧ c_risk_override c' = Some false).
Proof.
  split.
  - destruct (apply_risk_overrides_flags Examples.show_Q Examples.show_Q
                AggregateVotes.default_config Examples.buy_consensus
                Examples.hot_indicators)
      as (c' & flags & Hrun & Hflags & Hsum & Hfire & _).
    replace (expected_flags Examples.hot_indicators)
      with [("cbbi_high", 0.85%Q, 0.8%Q)] in Hsum by (vm_compute; reflexivity).
    destruct flags as [|f [|g flags]]; try discriminate.
    injection Hsum as Hname _ _.
    destruct Hfire as (Horig & Hact & Hover); [discriminate |].
    exists c', [f]. simpl. rewrite Hname. auto 10.
  - destruct (apply_risk_overrides_flags Examples.show_Q Examples.show_Q
                AggregateVotes.default_config Examples.buy_consensus
                Examples.calm_indicators)
      as (c' & flags & Hrun & Hflags & Hsum & _ & Hcalm & _).
    replace (expected_flags Examples.calm_indicators)
      with (@nil (string * Q * Q)) in Hsum by (vm_compute; reflexivity).
    destruct flags as [|f flags]; [| discriminate].
    destruct Hcalm as (Hover & Hact & _); [reflexivity |].
    exists c'. auto.
Defined.

(** C2, as the code has it.  After a CBBI of 0.85 has overridden the action
    buy, a second pass records de-risk as the original action: its output
    differs from the output of the first. *)
Lemma apply_risk_overrides_second_pass_differs :
  ∃ c1 c2,
    apply_risk_overrides Examples.show_Q Examples.show_Q
      AggregateVotes.default_config Examples.buy_consensus Examples.hot_indicators
      = Ret c1
    ∧ apply_risk_overrides Examples.show_Q Examples.show_Q
        AggregateVotes.default_config c1 Examples.hot_indicators
      = Ret c2
    ∧ c_original_action c1 = Some "buy"
    ∧ c_original_action c2 = Some "de-risk"
    ∧ c2 ≠ c1.
Proof.
  eexists _, _. split; [vm_compute; reflexivity |].
  split; [vm_compute; reflexivity |].
  split; [reflexivity |]. split; [reflexivity |].
  intros Heq. apply (f_equal c_original_action) in Heq. discriminate.
Qed.

End RiskEngineFacts.

(** * Further properties *)

(** ** agents/base_agent.py: the voter pipeline *)

Module BaseAgentMore.

Import BaseAgent Spec Reference PyFacts BaseAgentFacts.

(** X1. A higher score never gives a more bearish action. *)
Theorem determine_action_monotone (s1 s2 : Q) :
  (s1 <= s2)%Q →
  (action_rank (determine_action s1) <= action_rank (determine_action s2))%Z.
Proof.
  intros Hle. unfold determine_action.
  destruct (ge s1 75) eqn:A1; destruct (ge s1 60) eqn:A2;
    destruct (le s1 25) eqn:A3; destruct (le s1 40) eqn:A4;
    destruct (ge s2 75) eqn:B1; destruct (ge s2 60) eqn:B2;
    destruct (le s2 25) eqn:B3; destruct (le s2 40) eqn:B4;
    rewrite ?ge_true, ?ge_false, ?le_true, ?le_false in *;
    try lra; vm_compute; discriminate.
Qed.

Lemma determine_action_monotone_witness :
  (action_rank (determine_action 30) <= action_rank (determine_action 70))%Z.
Proof. apply (determine_action_monotone 30 70). lra. Defined.

(** The mock outputs label a score with the action a real agent gives it. *)
Theorem mock_action_is_determine_action (score : Q) :
  MockOutputs.mock_action score = determine_action score.
Proof.
  unfold MockOutputs.mock_action, determine_action.
  destruct (ge score 75), (ge score 60), (le score 25), (le score 40); reflexivity.
Qed.

(** The weights the fallback stores are not empty. *)
Lemma equal_weights_nonempty (inds : gmap string indicator) :
  inds ≠ ∅ → equal_weights inds ≠ ∅.
Proof.
  intros Hne Hempty. apply Hne. unfold equal_weights in Hempty.
  apply fmap_empty_inv in Hempty. exact Hempty.
Qed.

(** X2. A second call of [weight_signals] returns what the first returned and
    leaves the agent as the first left it. *)
Theorem weight_signals_settles (self : agent) :
  ∃ out self',
    weight_signals self = Ret (out, self')
    ∧ weight_signals self' = Ret (out, self').
Proof.
  destruct (dict_falsy (weights self)) eqn:Hw;
    [destruct (dict_falsy (indicators self)) eqn:Hi |].
  - apply dict_falsy_true in Hi.
    eexists _, _. split; apply weight_signals_declared; right; exact Hi.
  - apply dict_falsy_true in Hw. apply dict_falsy_false in Hi.
    eexists _, _. split; [apply weight_signals_undeclared; assumption |].
    rewrite weight_signals_declared; [reflexivity |].
    left. simpl. apply equal_weights_nonempty, Hi.
  - apply dict_falsy_false in Hw.
    eexists _, _. split; apply weight_signals_declared; left; exact Hw.
Qed.

(** *** The composite score of the weighted signals *)


Lemma clamp_inside (x : Q) : (0 <= x)%Q → (x <= 100)%Q → (clamp x == x)%Q.
Proof.
  intros Hlo Hhi. unfold clamp.
  destruct (Q.min_spec 100 x) as [[? Hmin] | [? Hmin]],
           (Q.max_spec 0 (Qmin 100 x)) as [[? Hmax] | [? Hmax]]; lra.
Qed.








(** *** The composite score under equal weighting *)






(** *** Scaling the weights *)






End BaseAgentMore.

(** ** scripts/aggregate_votes.py: the consensus *)

Module AggregateVotesMore.

Import AggregateVotes Spec Reference PyFacts AggregateVotesFacts.

(** *** The consensus score *)


Lemma of_nat_le (m n : nat) : (m ≤ n)%nat → (of_nat m <= of_nat n)%Q.
Proof.
  intros Hle. unfold of_nat. rewrite <- Zle_Qle. lia.
Qed.

Lemma of_nat_inj (m n : nat) : (of_nat m == of_nat n)%Q → m = n.
Proof.
  unfold of_nat. rewrite inject_Z_injective. lia.
Qed.







(** *** The action of a consensus score *)

(** A band the half-open rule accepts is a band the loop takes. *)
Lemma band_matches_taken (consensus_pct : Q) (b : band) (rest : list band) :
  band_matches consensus_pct b →
  scan_consensus_map consensus_pct (b :: rest) = Some (mapping_result b).
Proof.
  intros Hm. rewrite scan_consensus_map_step. unfold band_matches in Hm.
  destruct (b_max b) as [mx|], (b_min b) as [mn|]; try tauto.
  - destruct Hm as [_ Hlt]. apply lt_true in Hlt. rewrite Hlt. reflexivity.
  - apply lt_true in Hm. rewrite Hm. reflexivity.
  - apply ge_true in Hm. rewrite Hm. reflexivity.
Qed.

(** The loop takes a band the rule rejects only when the band has both
    bounds and the score is below its min. *)
Lemma band_rejected_passed (consensus_pct : Q) (b : band) (rest : list band) :
  ¬ band_matches consensus_pct b →
  (∀ mn mx, b_min b = Some mn → b_max b = Some mx →
     ¬ (consensus_pct < mn)%Q) →
  scan_consensus_map consensus_pct (b :: rest)
    = scan_consensus_map consensus_pct rest.
Proof.
  intros Hm Hguard. rewrite scan_consensus_map_step. unfold band_matches in Hm.
  destruct (b_max b) as [mx|], (b_min b) as [mn|]; try reflexivity.
  - destruct (lt consensus_pct mx) eqn:Hlt; [| reflexivity].
    apply lt_true in Hlt. exfalso. specialize (Hguard mn mx eq_refl eq_refl).
    apply Hm. split; [lra | exact Hlt].
  - destruct (lt consensus_pct mx) eqn:Hlt; [| reflexivity].
    apply lt_true in Hlt. contradiction.
  - destruct (ge consensus_pct mn) eqn:Hge; [| reflexivity].
    apply ge_true in Hge. contradiction.
Qed.

Lemma scan_follows_rule (consensus_pct : Q) (table : list band) :
  (∀ pre b post mn mx,
     table = pre ++ b :: post →
     b_min b = Some mn → b_max b = Some mx → (consensus_pct < mn)%Q →
     ∃ b', b' ∈ pre ∧ band_matches consensus_pct b') →
  scan_consensus_map consensus_pct table
    = mapping_result <$> first_match consensus_pct table.
Proof.
  induction table as [|b table IH]; intros Hguard; [reflexivity |].
  change (first_match consensus_pct (b :: table))
    with (if bool_decide (band_matches consensus_pct b)
          then Some b else first_match consensus_pct table).
  destruct (decide (band_matches consensus_pct b)) as [Hm | Hm].
  - rewrite bool_decide_eq_true_2 by exact Hm. apply band_matches_taken, Hm.
  - rewrite bool_decide_eq_false_2 by exact Hm.
    rewrite band_rejected_passed; [| exact Hm |].
    + apply IH. intros pre b2 post mn mx -> Hmn Hmx Hlt.
      destruct (Hguard (b :: pre) b2 post mn mx eq_refl Hmn Hmx Hlt)
        as (b' & Hin & Hb').
      exists b'. split; [| exact Hb'].
      apply elem_of_cons in Hin as [-> | Hin]; [contradiction | exact Hin].
    + intros mn mx Hmn Hmx Hlt.
      destruct (Hguard [] b table mn mx eq_refl Hmn Hmx Hlt) as (b' & Hin & _).
      apply elem_of_nil in Hin. exact Hin.
Qed.

(** X8. [map_consensus_to_action] returns the first band that matches under
    the half-open rule, or hold when none does, for every score that each
    band with both bounds is guarded against: whenever the score is below
    the min of such a band, a band listed before it matches the score. *)
Theorem map_consensus_to_action_guarded (consensus_pct : Q) (table : list band) :
  (∀ pre b post mn mx,
     table = pre ++ b :: post →
     b_min b = Some mn → b_max b = Some mx → (consensus_pct < mn)%Q →
     ∃ b', b' ∈ pre ∧ band_matches consensus_pct b') →
  map_consensus_to_action consensus_pct {| consensus_to_action := Some table |}
    = match first_match consensus_pct table with
      | Some b => mapping_result b
      | None => {| am_action := "hold"; am_emoji := emoji_yellow |}
      end.
Proof.
  intros Hguard. unfold map_consensus_to_action. simpl.
  rewrite (scan_follows_rule _ _ Hguard).
  destruct (first_match consensus_pct table); reflexivity.
Qed.

Lemma map_consensus_to_action_guarded_witness :
  map_consensus_to_action 30
    {| consensus_to_action :=
         Some [Examples.de_risk_band; Examples.hold_band; Examples.buy_band] |}
    = {| am_action := "de-risk"; am_emoji := AggregateVotes.emoji_red |}.
Proof.
  rewrite (map_consensus_to_action_guarded 30
             [Examples.de_risk_band; Examples.hold_band; Examples.buy_band]).
  - vm_compute. reflexivity.
  - intros pre b post mn mx Htable Hmn Hmx Hlt.
    destruct pre as [|b0 pre].
    { injection Htable as <- _. discriminate. }
    injection Htable as <- Htable.
    exists Examples.de_risk_band. split; [apply list_elem_of_here |].
    unfold band_matches. simpl. lra.
Defined.

(** *** The distribution of the votes *)

(** What the analysis of two votes or more returns. *)
Lemma analyze_agent_distribution_run (outs : list agent_output) :
  (2 ≤ length outs)%nat →
  ∃ top c,
    max_by snd (count_actions outs) = Ret (top, c)
    ∧ c = votes_for top outs
    ∧ (0 < c)%nat
    ∧ (∀ a, (votes_for a outs ≤ c)%nat)
    ∧ analyze_agent_distribution outs
      = Ret {| distribution := count_actions outs;
               agreement_level := (of_nat c / of_nat (length outs))%Q;
               majority_action := Some top |}.
Proof.
  intros Hlen. unfold analyze_agent_distribution.
  replace (length outs <=? 1) with false by (symmetry; apply Nat.leb_gt; lia).
  replace (0 <? length outs) with true by (symmetry; apply Nat.ltb_lt; lia).
  pose proof (count_actions_get outs) as Hget.
  pose proof (count_actions_NoDup outs) as Hnd.
  assert (Hne : count_actions outs ≠ []).
  { destruct outs as [|o outs]; [simpl in Hlen; lia |].
    apply count_actions_nonempty. }
  apply list_falsy_false in Hne as Hfalsy. rewrite Hfalsy. simpl negb.
  destruct (max_nat_spec ((count_actions outs).*2)) as (c' & Hmax & Hc'in & Hc'max).
  { intros Hnil. apply fmap_nil_inv in Hnil. contradiction. }
  rewrite Hmax, bind_Ret.
  rewrite truediv_nonzero, bind_Ret by (rewrite of_nat_zero_iff; lia).
  destruct (max_by_spec snd (count_actions outs) Hne)
    as ([top c] & Htop & Htopin & Htopmax).
  rewrite Htop, !bind_Ret. simpl in Htopmax.
  assert (Hc : c' = c).
  { apply Nat.le_antisymm.
    - apply list_elem_of_fmap in Hc'in as ([k v] & -> & Hkv).
      apply (Htopmax _ Hkv).
    - apply Hc'max. apply (list_elem_of_fmap_2 snd) in Htopin. exact Htopin. }
  subst c'.
  assert (Hcount : c = votes_for top outs ∧ (0 < c)%nat).
  { apply odict_elem_get in Htopin; [| exact Hnd].
    rewrite Hget in Htopin.
    destruct (votes_for top outs); [discriminate |].
    injection Htopin as <-. split; [reflexivity | lia]. }
  destruct Hcount as [Hc Hpos].
  exists top, c. split; [reflexivity |]. split; [exact Hc |].
  split; [exact Hpos |]. split; [| reflexivity].
  intros a. destruct (votes_for a outs) as [|n] eqn:Hn; [lia |].
  specialize (Hget a). rewrite Hn in Hget.
  apply odict_get_elem in Hget. apply (Htopmax _ Hget).
Qed.

Lemma odict_set_sum (d : odict nat) (k : string) (v : nat) :
  (sum_list (odict_set d k v).*2 + default 0 (odict_get d k)
   = sum_list d.*2 + v)%nat.
Proof.
  induction d as [|[k0 v0] d IH]; simpl; [lia |].
  unfold fmap in IH.
  destruct (String.eqb_spec k0 k) as [-> | Hne]; simpl; lia.
Qed.

Lemma count_votes_sum (outs : list agent_output) (d : odict nat) :
  sum_list (fold_left count_vote outs d).*2 = (sum_list d.*2 + length outs)%nat.
Proof.
  revert d. induction outs as [|o outs IH]; intros d; simpl; [lia |].
  rewrite IH. unfold count_vote.
  pose proof (odict_set_sum d (default "HOLD" (out_action o))
                (default 0 (odict_get d (default "HOLD" (out_action o))) + 1)).
  lia.
Qed.

Lemma votes_for_all (a : string) (outs : list agent_output) :
  votes_for a outs = length outs ↔ ∀ o, o ∈ outs → action_of o = a.
Proof.
  unfold votes_for. split.
  - intros Hlen o Ho. destruct (decide (action_of o = a)) as [Heq | Hne]; [exact Heq |].
    pose proof (length_filter_lt (λ o, action_of o = a) outs o Ho Hne). lia.
  - intros Hall. induction outs as [|o outs IH]; [reflexivity |].
    rewrite filter_cons_True by (apply Hall, list_elem_of_here).
    simpl. f_equal. apply IH. intros o' Ho'. apply Hall, list_elem_of_further, Ho'.
Qed.

(** X9. For two votes or more, the counts of the distribution add up to the
    number of votes, and the agreement level lies in (0, 1]; it is 1
    exactly when all votes carry the same action. *)
Theorem distribution_accounts_for_every_vote (outs : list agent_output) :
  (2 ≤ length outs)%nat →
  ∃ r, analyze_agent_distribution outs = Ret r
    ∧ sum_list (distribution r).*2 = length outs
    ∧ (0 < agreement_level r)%Q
    ∧ (agreement_level r <= 1)%Q
    ∧ ((agreement_level r == 1)%Q ↔ ∃ a, ∀ o, o ∈ outs → action_of o = a).
Proof.
  intros Hlen.
  destruct (analyze_agent_distribution_run outs Hlen)
    as (top & c & _ & Hc & Hpos & Hmax & Hrun).
  eexists. split; [exact Hrun |]. simpl.
  assert (HN : (0 < of_nat (length outs))%Q) by (apply of_nat_pos; lia).
  assert (HcN : (c ≤ length outs)%nat).
  { rewrite Hc. unfold votes_for. apply length_filter. }
  split; [| split; [| split]].
  - unfold count_actions. rewrite count_votes_sum. reflexivity.
  - apply Qlt_shift_div_l; [exact HN |]. rewrite Qmult_0_l. apply of_nat_pos, Hpos.
  - apply Qle_shift_div_r; [exact HN |]. rewrite Qmult_1_l. apply of_nat_le, HcN.
  - assert (Hone : (of_nat c / of_nat (length outs) == 1)%Q ↔ c = length outs).
    { split.
      - intros Heq. apply of_nat_inj.
        rewrite <- (Qmult_1_l (of_nat (length outs))), <- Heq. field. lra.
      - intros ->. field. lra. }
    rewrite Hone. split.
    + intros Heq. exists top. apply votes_for_all. congruence.
    + intros [a Hall]. apply votes_for_all in Hall.
      specialize (Hmax a). lia.
Qed.

Lemma distribution_accounts_for_every_vote_witness :
  ∃ r, analyze_agent_distribution Examples.three_votes = Ret r
    ∧ sum_list (distribution r).*2 = 3%nat
    ∧ (0 < agreement_level r)%Q
    ∧ (agreement_level r <= 1)%Q.
Proof.
  destruct (distribution_accounts_for_every_vote Examples.three_votes)
    as (r & Hrun & Hsum & Hpos & Hle & _).
  - simpl. lia.
  - exists r. auto.
Defined.

(** *** The tie-break of the majority action *)

(** [max] with a key returns the first item with the greatest key. *)
Lemma fold_max_first {A} (key : A → nat) (xs : list A) (x : A) :
  let best := fold_left (λ best y, if Nat.ltb (key best) (key y) then y else best) xs x in
  ∃ pre post,
    x :: xs = pre ++ best :: post
    ∧ Forall (λ y, (key y < key best)%nat) pre
    ∧ Forall (λ y, (key y ≤ key best)%nat) post.
Proof.
  revert x. induction xs as [|y xs IH]; intros x; simpl.
  - exists [], []. split; [reflexivity |]. split; constructor.
  - destruct (Nat.ltb_spec (key x) (key y)) as [Hlt | Hle].
    + destruct (IH y) as (pre & post & Hsplit & Hpre & Hpost).
      set (best := fold_left _ xs y) in *. clearbody best.
      exists (x :: pre), post. split; [simpl; f_equal; exact Hsplit |].
      split; [| exact Hpost]. constructor; [| exact Hpre].
      destruct pre as [|p pre]; simpl in Hsplit; injection Hsplit as Hhead _.
      * subst best. exact Hlt.
      * subst p. apply Forall_cons in Hpre as [Hp _]. lia.
    + destruct (IH x) as (pre & post & Hsplit & Hpre & Hpost).
      set (best := fold_left _ xs x) in *. clearbody best.
      destruct pre as [|p pre]; simpl in Hsplit; injection Hsplit as Hhead Htail.
      * subst best post. exists [], (y :: xs).
        split; [reflexivity |]. split; [constructor |].
        constructor; [exact Hle | exact Hpost].
      * subst p xs. exists (x :: y :: pre), post.
        split; [reflexivity |]. split; [| exact Hpost].
        apply Forall_cons in Hpre as [Hx Hpre].
        constructor; [exact Hx |]. constructor; [lia | exact Hpre].
Qed.

Lemma max_by_first {A} (key : A → nat) (xs : list A) :
  xs ≠ [] →
  ∃ best pre post,
    max_by key xs = Ret best
    ∧ xs = pre ++ best :: post
    ∧ Forall (λ y, (key y < key best)%nat) pre
    ∧ Forall (λ y, (key y ≤ key best)%nat) post.
Proof.
  destruct xs as [|x xs]; [contradiction |]. intros _. simpl.
  destruct (fold_max_first key xs x) as (pre & post & Hsplit & Hpre & Hpost).
  eexists _, pre, post. split; [reflexivity |]. auto.
Qed.

Lemma filter_not_in_nil (l : list string) : filter (λ a, a ∉ @nil string) l = l.
Proof.
  induction l as [|a l IH]; [reflexivity |].
  rewrite filter_cons_True by apply not_elem_of_nil. rewrite IH. reflexivity.
Qed.

(** The keys of the counter after the loop: the keys before it, then the
    new actions in the order of their first vote. *)
Lemma count_votes_keys (outs : list agent_output) (d : odict nat) :
  (fold_left count_vote outs d).*1
    = d.*1 ++ filter (λ a, a ∉ d.*1) (first_seen (action_of <$> outs)).
Proof.
  revert d. induction outs as [|o outs IH]; intros d.
  - simpl. rewrite app_nil_r. reflexivity.
  - cbn [fold_left]. rewrite IH. unfold count_vote. fold (action_of o).
    rewrite odict_set_keys. rewrite fmap_cons. cbn [first_seen].
    destruct (decide (action_of o ∈ d.*1)) as [Hin | Hnin].
    + rewrite filter_cons_False by (intros Hn; contradiction).
      rewrite list_filter_filter_l; [reflexivity |].
      intros a Ha ->. contradiction.
    + rewrite filter_cons_True by exact Hnin.
      rewrite <- app_assoc. simpl. do 2 f_equal.
      rewrite list_filter_filter. apply list_filter_iff.
      intros a. rewrite elem_of_app, list_elem_of_singleton. tauto.
Qed.

(** X10. The distribution lists the actions in the order of their first vote,
    and the majority action is the first of them that has the greatest
    count: among actions with equally many votes, the one voted first
    wins. *)
Theorem majority_action_is_first_leader (outs : list agent_output) :
  (2 ≤ length outs)%nat →
  ∃ r top c pre post,
    analyze_agent_distribution outs = Ret r
    ∧ majority_action r = Some top
    ∧ (distribution r).*1 = first_seen (action_of <$> outs)
    ∧ distribution r = pre ++ (top, c) :: post
    ∧ Forall (λ entry, (entry.2 < c)%nat) pre
    ∧ Forall (λ entry, (entry.2 ≤ c)%nat) post.
Proof.
  intros Hlen.
  destruct (analyze_agent_distribution_run outs Hlen)
    as (top & c & Hmax & _ & _ & _ & Hrun).
  assert (Hne : count_actions outs ≠ []).
  { destruct outs as [|o outs]; [simpl in Hlen; lia |].
    apply count_actions_nonempty. }
  destruct (max_by_first snd (count_actions outs) Hne)
    as (best & pre & post & Hbest & Hsplit & Hpre & Hpost).
  rewrite Hmax in Hbest. injection Hbest as <-.
  eexists _, top, c, pre, post. split; [exact Hrun |]. simpl.
  split; [reflexivity |]. split; [| split; [exact Hsplit | split; assumption]].
  unfold count_actions. rewrite count_votes_keys. simpl.
  apply filter_not_in_nil.
Qed.

Lemma majority_action_is_first_leader_witness :
  ∃ r, analyze_agent_distribution
         [Examples.vote "HOLD" 50; Examples.vote "BUY" 70;
          Examples.vote "BUY" 65; Examples.vote "HOLD" 45] = Ret r
    ∧ majority_action r = Some "HOLD"
    ∧ (distribution r).*1 = ["HOLD"; "BUY"].
Proof.
  destruct (majority_action_is_first_leader
              [Examples.vote "HOLD" 50; Examples.vote "BUY" 70;
               Examples.vote "BUY" 65; Examples.vote "HOLD" 45])
    as (r & top & c & pre & post & Hrun & Hmaj & Hkeys & _);
    [simpl; lia |].
  exists r. split; [exact Hrun |]. split; [| exact Hkeys].
  rewrite Hmaj. revert Hrun Hmaj. vm_compute. intros [= <-] [= <-]. reflexivity.
Defined.

End AggregateVotesMore.

(** ** scripts/risk_engine.py: the override pass *)

Module RiskEngineMore.

Import RiskEngine Spec Reference PyFacts RiskEngineFacts.

Section Facts.

Variable format_2f : Q → string.
Variable format_plain : Q → string.

(** X13. The override pass reads the indicators stored under ["Cbbi"],
    ["Rainbow Bands"] and ["Pi Cycle"] and nothing else: two indicator sets
    that agree on these three keys give the same result. *)
Theorem apply_risk_overrides_reads_three_keys (config : action_map)
    (c : consensus) (inds inds' : gmap string indicator) :
  inds !! "Cbbi" = inds' !! "Cbbi" →
  inds !! "Rainbow Bands" = inds' !! "Rainbow Bands" →
  inds !! "Pi Cycle" = inds' !! "Pi Cycle" →
  apply_risk_overrides format_2f format_plain config c inds
    = apply_risk_overrides format_2f format_plain config c inds'.
Proof.
  intros Hcbbi Hrainbow Hpi.
  unfold apply_risk_overrides, collect_risk_flags, run_check.
  rewrite Hcbbi, Hrainbow, Hpi. reflexivity.
Qed.

(** X14. After two passes the override pass has settled: a third pass over the
    output of the second returns it unchanged. *)
Theorem apply_risk_overrides_settles (config : action_map) (c : consensus)
    (inds : gmap string indicator) :
  ∃ c1 c2,
    apply_risk_overrides format_2f format_plain config c inds = Ret c1
    ∧ apply_risk_overrides format_2f format_plain config c1 inds = Ret c2
    ∧ apply_risk_overrides format_2f format_plain config c2 inds = Ret c2.
Proof.
  destruct (collect_risk_flags_spec format_2f format_plain inds)
    as (flags & Hrun & _).
  unfold apply_risk_overrides. rewrite Hrun, !bind_Ret.
  destruct flags as [|f flags]; simpl; eexists _, _; repeat split.
Qed.

Lemma expected_of_shape (ind : indicator) (flag : string) (threshold : Q) :
  expected_of ind flag threshold = []
  ∨ ∃ v, expected_of ind flag threshold = [(flag, v, threshold)]
       ∧ (threshold <= v)%Q.
Proof.
  unfold expected_of. destruct (ind_value ind) as [v|]; [| left; reflexivity].
  case_decide; [right; eauto | left; reflexivity].
Qed.

Lemma expected_flag_shape (inds : gmap string indicator)
    (key flag : string) (threshold : Q) :
  expected_flag inds key flag threshold = []
  ∨ ∃ v, expected_flag inds key flag threshold = [(flag, v, threshold)]
       ∧ (threshold <= v)%Q.
Proof.
  unfold expected_flag. destruct (inds !! key); [| left; reflexivity].
  apply expected_of_shape.
Qed.

Lemma expected_flags_shape (inds : gmap string indicator) :
  sublist ((λ t, t.1.1) <$> expected_flags inds)
          ["cbbi_high"; "rainbow_top"; "pi_cycle_top"]
  ∧ Forall (λ t, (t.2 <= t.1.2)%Q) (expected_flags inds).
Proof.
  unfold expected_flags.
  destruct (expected_flag_shape inds "Cbbi" "cbbi_high" 0.8) as [-> | (v1 & -> & H1)];
    destruct (expected_flag_shape inds "Rainbow Bands" "rainbow_top" 7)
      as [-> | (v2 & -> & H2)];
    destruct (expected_flag_shape inds "Pi Cycle" "pi_cycle_top" 0.95)
      as [-> | (v3 & -> & H3)];
    simpl;
    (split;
       [repeat first [apply sublist_nil | apply sublist_skip | apply sublist_cons]
       | repeat (constructor; [simpl; assumption |]); constructor]).
Qed.

(** X15. The risk flags of the result are well formed: at most one flag per
    check, in the order CBBI, Rainbow Bands, Pi-Cycle, each with a value
    that reaches its threshold; and the override is marked exactly when
    there is a flag. *)
Theorem risk_flags_well_formed (config : action_map) (c : consensus)
    (inds : gmap string indicator) :
  ∃ c' flags,
    apply_risk_overrides format_2f format_plain config c inds = Ret c'
    ∧ c_risk_flags c' = Some flags
    ∧ sublist (rf_flag <$> flags) ["cbbi_high"; "rainbow_top"; "pi_cycle_top"]
    ∧ Forall (λ f, (rf_threshold f <= rf_value f)%Q) flags
    ∧ c_risk_override c' = Some (negb (list_falsy flags)).
Proof.
  destruct (apply_risk_overrides_run format_2f format_plain config c inds)
    as (flags & Hflags & Hrun).
  destruct (expected_flags_shape inds) as [Hsub Hall].
  rewrite <- Hflags in Hsub, Hall.
  rewrite <- list_fmap_compose in Hsub. rewrite Forall_fmap in Hall.
  eexists _, flags. split; [exact Hrun |].
  destruct flags as [|f flags];
    (split; [reflexivity |]; split; [exact Hsub |]; split; [exact Hall |];
     reflexivity).
Qed.

End Facts.

Lemma apply_risk_overrides_reads_three_keys_witness :
  apply_risk_overrides Examples.show_Q Examples.show_Q AggregateVotes.default_config
    Examples.buy_consensus Examples.calm_indicators
  = apply_risk_overrides Examples.show_Q Examples.show_Q AggregateVotes.default_config
      Examples.buy_consensus
      (<["CBBI" := Examples.ind 0.99 "bearish"]> Examples.calm_indicators).
Proof.
  apply apply_risk_overrides_reads_three_keys;
    rewrite lookup_insert_ne by discriminate; reflexivity.
Defined.

End RiskEngineMore.

(** ** scripts/refresh_indicators.py: signals and risk thresholds *)

Module RefreshFacts.

Import RefreshIndicators RiskEngine BaseAgent Spec PyFacts.

Lemma get_signal_cbbi (v : Q) :
  get_signal_from_value "cbbi" v
    = if ge v 0.8 then "bearish" else if le v 0.3 then "bullish" else "neutral".
Proof. reflexivity. Qed.

Lemma get_signal_rainbow_bands (v : Q) :
  get_signal_from_value "rainbow_bands" v
    = if ge v 7 then "bearish" else if le v 2 then "bullish" else "neutral".
Proof. reflexivity. Qed.

Lemma get_signal_pi_cycle (v : Q) :
  get_signal_from_value "pi_cycle" v
    = if ge v 0.95 then "bearish" else if le v 0.5 then "bullish" else "neutral".
Proof. reflexivity. Qed.

Section Facts.

Variable format_2f : Q → string.
Variable format_plain : Q → string.

(** X18. The signal thresholds of the refresher are the thresholds of the risk
    checks: on a refreshed CBBI or Rainbow Bands record the risk check
    fires exactly when the signal is bearish, and then a voter's base
    score for the indicator is 25. *)
Theorem risk_check_fires_iff_bearish (v : Q) (timestamp : string) :
  ((∃ flag, check_cbbi_risk format_2f (cbbi_result v timestamp) = Ret (Some flag))
     ↔ ind_signal (cbbi_result v timestamp) = Some "bearish")
  ∧ ((∃ flag, check_rainbow_risk format_plain (rainbow_bands_result v timestamp)
               = Ret (Some flag))
       ↔ ind_signal (rainbow_bands_result v timestamp) = Some "bearish")
  ∧ (∀ w, ind_signal (cbbi_result v timestamp) = Some "bearish" →
          base_score (make_weighted_signal (cbbi_result v timestamp) w) = 25%Z)
  ∧ (∀ w, ind_signal (rainbow_bands_result v timestamp) = Some "bearish" →
          base_score (make_weighted_signal (rainbow_bands_result v timestamp) w) = 25%Z).
Proof.
  unfold cbbi_result, rainbow_bands_result, check_cbbi_risk, check_rainbow_risk,
    lacks_value, getitem_value, make_weighted_signal.
  cbn [ind_value ind_signal base_score default]. rewrite !bind_Ret.
  rewrite get_signal_cbbi, get_signal_rainbow_bands.
  split; [| split; [| split]].
  - destruct (ge v 0.8); [split; eauto |].
    split; [intros [flag Hflag]; discriminate |].
    destruct (le v 0.3); discriminate.
  - destruct (ge v 7); [split; eauto |].
    split; [intros [flag Hflag]; discriminate |].
    destruct (le v 2); discriminate.
  - intros _ [= ->]. reflexivity.
  - intros _ [= ->]. reflexivity.
Qed.

(** X19. The synthetic Pi-Cycle ratio of every day of the month lies between
    0.51 and 0.81: its signal is always neutral and the Pi-Cycle risk check
    never fires on it. *)
Theorem pi_cycle_result_is_neutral (day_of_month : Z) (timestamp : string) :
  (1 <= day_of_month <= 31)%Z →
  ind_signal (pi_cycle_result day_of_month timestamp) = Some "neutral"
  ∧ check_pi_cycle_risk format_2f (pi_cycle_result day_of_month timestamp) = Ret None
  ∧ ∃ v, ind_value (pi_cycle_result day_of_month timestamp) = Some v
       ∧ (0.51 <= v)%Q ∧ (v <= 0.81)%Q.
Proof.
  intros [Hlo Hhi].
  rewrite Zle_Qle in Hlo, Hhi.
  change (inject_Z 1) with 1%Q in Hlo. change (inject_Z 31) with 31%Q in Hhi.
  unfold pi_cycle_result, check_pi_cycle_risk, lacks_value, getitem_value.
  cbn [ind_value ind_signal]. rewrite bind_Ret, get_signal_pi_cycle.
  set (ratio := (0.5 + inject_Z day_of_month / 100)%Q).
  assert (Hratio : (0.51 <= ratio)%Q ∧ (ratio <= 0.81)%Q).
  { unfold ratio, Qdiv. change (/ 100)%Q with (1 # 100)%Q. split; lra. }
  destruct Hratio as [Hrlo Hrhi].
  replace (ge ratio 0.95) with false by (symmetry; apply ge_false; lra).
  replace (le ratio 0.5) with false by (symmetry; apply le_false; lra).
  split; [reflexivity |]. split; [reflexivity |].
  exists ratio. auto.
Qed.

End Facts.

Lemma risk_check_fires_iff_bearish_witness :
  ind_signal (cbbi_result 0.85 "2025-05-20T00:00:00") = Some "bearish"
  ∧ base_score (make_weighted_signal (cbbi_result 0.85 "2025-05-20T00:00:00") 1) = 25%Z.
Proof.
  destruct (risk_check_fires_iff_bearish Examples.show_Q Examples.show_Q
              0.85 "2025-05-20T00:00:00") as (Hcbbi & _ & Hbase & _).
  assert (Hsignal : ind_signal (cbbi_result 0.85 "2025-05-20T00:00:00")
                    = Some "bearish").
  { apply Hcbbi. eexists. vm_compute. reflexivity. }
  split; [exact Hsignal | apply Hbase, Hsignal].
Defined.

Lemma pi_cycle_result_is_neutral_witness :
  ind_signal (pi_cycle_result 20 "2025-05-20T00:00:00") = Some "neutral"
  ∧ check_pi_cycle_risk Examples.show_Q
      (pi_cycle_result 20 "2025-05-20T00:00:00") = Ret None.
Proof.
  destruct (pi_cycle_result_is_neutral Examples.show_Q 20 "2025-05-20T00:00:00")
    as (Hsignal & Hcheck & _); [lia |].
  split; assumption.
Defined.

End RefreshFacts.

(** ** The names of the indicator directories *)

Module NamesFacts.

Import Text RiskEngineFiles RefreshIndicators.

Ltac by_cases_on_char c :=
  destruct c as [[] [] [] [] [] [] [] []]; vm_compute; try reflexivity; try tauto.

Lemma to_lower_title_char (b : bool) (c : Ascii.ascii) :
  to_lower (if b then to_lower c else to_upper c) = to_lower c.
Proof. destruct b; by_cases_on_char c. Qed.

Lemma to_lower_idem (c : Ascii.ascii) : to_lower (to_lower c) = to_lower c.
Proof. by_cases_on_char c. Qed.

Lemma to_lower_underscore_to_space (c : Ascii.ascii) :
  to_lower (if Ascii.eqb c underscore then space else c)
    = if Ascii.eqb (to_lower c) underscore then space else to_lower c.
Proof. by_cases_on_char c. Qed.

Lemma to_lower_space_to_underscore (c : Ascii.ascii) :
  to_lower (if Ascii.eqb c space then underscore else c)
    = if Ascii.eqb (to_lower c) space then underscore else to_lower c.
Proof. by_cases_on_char c. Qed.

Lemma underscore_space_underscore_char (c : Ascii.ascii) :
  (if Ascii.eqb (if Ascii.eqb c underscore then space else c) space
   then underscore else if Ascii.eqb c underscore then space else c)
  = if Ascii.eqb c space then underscore else c.
Proof. by_cases_on_char c. Qed.

Lemma space_underscore_twice_char (c : Ascii.ascii) :
  (if Ascii.eqb (if Ascii.eqb c space then underscore else c) space
   then underscore else if Ascii.eqb c space then underscore else c)
  = if Ascii.eqb c space then underscore else c.
Proof. by_cases_on_char c. Qed.

Lemma normal_char (c : Ascii.ascii) :
  (if Ascii.eqb (to_lower c) space then underscore else to_lower c) = c
  ↔ is_upper c = false ∧ c ≠ space.
Proof.
  destruct c as [[] [] [] [] [] [] [] []]; vm_compute;
    (split; [intros H; first [discriminate H | split; [reflexivity | discriminate]]
            | intros [H1 H2]; first [discriminate H1 | reflexivity
                                     | exfalso; apply H2; reflexivity]]).
Qed.

Lemma lower_title_from (b : bool) (s : string) : lower (title_from b s) = lower s.
Proof.
  revert b. induction s as [|c s IH]; intros b; simpl; [reflexivity |].
  rewrite to_lower_title_char, IH. reflexivity.
Qed.

Lemma lower_idem (s : string) : lower (lower s) = lower s.
Proof.
  induction s as [|c s IH]; simpl; [reflexivity |].
  rewrite to_lower_idem, IH. reflexivity.
Qed.

Lemma lower_underscore_to_space (s : string) :
  lower (replace underscore space s) = replace underscore space (lower s).
Proof.
  induction s as [|c s IH]; simpl; [reflexivity |].
  rewrite to_lower_underscore_to_space, IH. reflexivity.
Qed.

Lemma lower_space_to_underscore (s : string) :
  lower (replace space underscore s) = replace space underscore (lower s).
Proof.
  induction s as [|c s IH]; simpl; [reflexivity |].
  rewrite to_lower_space_to_underscore, IH. reflexivity.
Qed.

Lemma replace_back (s : string) :
  replace space underscore (replace underscore space s)
    = replace space underscore s.
Proof.
  induction s as [|c s IH]; simpl; [reflexivity |].
  rewrite underscore_space_underscore_char, IH. reflexivity.
Qed.

Lemma replace_twice (s : string) :
  replace space underscore (replace space underscore s)
    = replace space underscore s.
Proof.
  induction s as [|c s IH]; simpl; [reflexivity |].
  rewrite space_underscore_twice_char, IH. reflexivity.
Qed.

Lemma normalized_name_idem (name : string) :
  normalized_name (normalized_name name) = normalized_name name.
Proof.
  unfold normalized_name.
  rewrite lower_space_to_underscore, lower_idem, replace_twice. reflexivity.
Qed.

(** The name under which a directory is looked up again is the normalized
    name of the directory. *)
Lemma normalized_display_name (dir_name : string) :
  normalized_name (display_name dir_name) = normalized_name dir_name.
Proof.
  unfold normalized_name, display_name, title.
  rewrite lower_title_from, lower_underscore_to_space, replace_back.
  reflexivity.
Qed.

Lemma normalized_name_fixed (s : string) :
  normalized_name s = s
  ↔ Forall (λ c, is_upper c = false ∧ c ≠ space) (chars s).
Proof.
  unfold normalized_name. induction s as [|c s IH]; simpl.
  - split; [constructor | reflexivity].
  - split.
    + intros [= Hc Hs]. constructor; [apply normal_char, Hc | apply IH, Hs].
    + intros Hall. apply Forall_cons in Hall as [Hc Hs].
      apply normal_char in Hc. apply IH in Hs. rewrite Hc, Hs. reflexivity.
Qed.

(** X16. For an ASCII name, the risk engine looks an indicator directory up
    under the normalized form of its display name; this is the name of the
    directory exactly when that name has no capital letter and no space. *)
Theorem indicator_directory_found_iff (dir_name : string) :
  normalized_name (display_name dir_name) = dir_name
  ↔ Forall (λ c, is_upper c = false ∧ c ≠ space) (chars dir_name).
Proof.
  rewrite normalized_display_name. apply normalized_name_fixed.
Qed.

Lemma indicator_directory_found_iff_witness :
  normalized_name (display_name "rainbow_bands") = "rainbow_bands"
  ∧ display_name "rainbow_bands" = "Rainbow Bands".
Proof.
  split; [| reflexivity].
  apply (indicator_directory_found_iff "rainbow_bands").
  simpl. repeat (constructor; [split; [reflexivity | discriminate] |]).
  constructor.
Defined.

(** X17. The directory [save_indicator] writes an indicator to is one the
    risk engine looks up under its own name, whatever the (ASCII) name of
    the indicator. *)
Theorem saved_indicator_is_found (name : string) :
  normalized_name (display_name (indicator_dir name)) = indicator_dir name.
Proof.
  rewrite normalized_display_name.
  change (indicator_dir name) with (normalized_name name).
  apply normalized_name_idem.
Qed.

End NamesFacts.

(** ** agents/llm_agent.py: the parsed reply *)

Module LlmAgentFacts.

Import LlmAgent Spec PyFacts BaseAgentFacts BaseAgentMore.

Lemma require_is_Some {A} (field : option (option A)) : is_Some (require field).
Proof. destruct field; simpl; eauto. Qed.

Lemma validate_score (parsed : reply) :
  r_score (validate parsed)
    = match r_score parsed with
      | Some (Some score) => Some (Some (max2 0 (min2 100 score)))
      | _ => Some None
      end.
Proof.
  unfold validate. simpl. destruct (r_score parsed) as [[score|]|]; reflexivity.
Qed.

Lemma validate_required (parsed : reply) :
  is_Some (r_score (validate parsed))
  ∧ is_Some (r_action (validate parsed))
  ∧ is_Some (r_confidence (validate parsed))
  ∧ is_Some (r_rationale (validate parsed)).
Proof.
  unfold validate. simpl.
  destruct (r_score parsed) as [[score|]|]; simpl;
    repeat split; eauto using require_is_Some.
Qed.

(** X20. For a reply that does not decode, or decodes to an object whose score
    is missing, null or a number, the parsed reply holds the four required
    keys, and its score is null or lies in [0, 100]; a score that already
    lies there is kept. *)
Theorem parse_llm_response_normalizes (decoded : option reply) :
  let parsed := parse_llm_response decoded in
  is_Some (r_score parsed)
  ∧ is_Some (r_action parsed)
  ∧ is_Some (r_confidence parsed)
  ∧ is_Some (r_rationale parsed)
  ∧ (∀ score, r_score parsed = Some (Some score) →
       (0 <= score)%Q ∧ (score <= 100)%Q)
  ∧ (∀ reply score, decoded = Some reply → r_score reply = Some (Some score) →
       ∃ score', r_score parsed = Some (Some score')
         ∧ (score' == clamp score)%Q
         ∧ ((0 <= score)%Q → (score <= 100)%Q → (score' == score)%Q)).
Proof.
  destruct decoded as [parsed|]; simpl.
  - destruct (validate_required parsed) as (H1 & H2 & H3 & H4).
    do 4 (split; [assumption |]). split.
    + intros score. rewrite validate_score.
      destruct (r_score parsed) as [[q|]|]; intros [= <-].
      rewrite max2_min2_clamp. apply clamp_bounds.
    + intros reply score [= <-] Hscore. rewrite validate_score, Hscore.
      eexists. split; [reflexivity |]. split; [apply max2_min2_clamp |].
      intros Hlo Hhi. rewrite max2_min2_clamp. apply clamp_inside; assumption.
  - do 4 (split; [eexists; reflexivity |]). split.
    + intros score [= <-]. split; lra.
    + intros reply score Hreply. discriminate.
Qed.

Lemma parse_llm_response_normalizes_witness :
  r_score (parse_llm_response
             (Some {| r_score := Some (Some 140%Q); r_action := None;
                      r_confidence := Some None; r_rationale := None |}))
    = Some (Some 100%Q)
  ∧ is_Some (r_action (parse_llm_response
             (Some {| r_score := Some (Some 140%Q); r_action := None;
                      r_confidence := Some None; r_rationale := None |}))).
Proof.
  split; [reflexivity |].
  apply (parse_llm_response_normalizes
           (Some {| r_score := Some (Some 140%Q); r_action := None;
                    r_confidence := Some None; r_rationale := None |})).
Defined.

End LlmAgentFacts.

(** ** From the votes to the final consensus *)

Module PipelineFacts.

Import AggregateVotes RiskEngine Spec Reference PyFacts.
Import AggregateVotesFacts AggregateVotesMore RiskEngineFacts.

Lemma calculate_consensus_pct_returns (outs : list agent_output) :
  ∃ s, calculate_consensus_pct outs = Ret s.
Proof.
  destruct outs as [|o outs]; [exists 50%Q; reflexivity |].
  destruct (calculate_consensus_pct_nonempty (o :: outs)) as (s & Hrun & _);
    [discriminate | eauto].
Qed.

Lemma analyze_agent_distribution_returns (outs : list agent_output) :
  ∃ r, analyze_agent_distribution outs = Ret r.
Proof.
  destruct (le_lt_dec (length outs) 1) as [Hle | Hlt].
  - unfold analyze_agent_distribution. apply Nat.leb_le in Hle. rewrite Hle. eauto.
  - destruct (analyze_agent_distribution_run outs) as (top & c & _ & _ & _ & _ & Hrun);
      [lia | eauto].
Qed.

(** The consensus [aggregate_votes] builds. *)
Lemma aggregate_votes_run (today now : string)
    (outs : list agent_output) (config : action_map) :
  ∃ s r,
    calculate_consensus_pct outs = Ret s
    ∧ analyze_agent_distribution outs = Ret r
    ∧ aggregate_votes today now outs config
      = Ret {| c_date := Some today;
               c_timestamp := Some now;
               c_score := Some s;
               c_action := Some (am_action (map_consensus_to_action s config));
               c_emoji := Some (am_emoji (map_consensus_to_action s config));
               c_agent_votes := Some
                 ((λ output,
                     {| v_name := default "Unknown" (out_agent_name output);
                        v_score := default 50%Q (out_score output);
                        v_action := default "HOLD" (out_action output);
                        v_confidence := default 0.5%Q (out_confidence output);
                        v_rationale := default EmptyString (out_rationale output) |})
                    <$> outs);
               c_distribution := Some r;
               c_risk_flags := None;
               c_original_action := None;
               c_risk_override := None |}.
Proof.
  destruct (calculate_consensus_pct_returns outs) as (s & Hs).
  destruct (analyze_agent_distribution_returns outs) as (r & Hr).
  exists s, r. split; [exact Hs |]. split; [exact Hr |].
  unfold aggregate_votes. rewrite Hs, bind_Ret, Hr, bind_Ret. reflexivity.
Qed.

(** X11. [aggregate_votes] returns for every list of votes and every
    configuration: the score is the consensus score, the action and the
    emoji are those of the score, there is one entry per vote, and no risk
    field is set. *)
Theorem aggregate_votes_returns (today now : string)
    (outs : list agent_output) (config : action_map) :
  ∃ s c,
    calculate_consensus_pct outs = Ret s
    ∧ aggregate_votes today now outs config = Ret c
    ∧ c_score c = Some s
    ∧ c_action c = Some (am_action (map_consensus_to_action s config))
    ∧ c_emoji c = Some (am_emoji (map_consensus_to_action s config))
    ∧ (length <$> c_agent_votes c) = Some (length outs)
    ∧ c_risk_flags c = None
    ∧ c_risk_override c = None
    ∧ c_original_action c = None.
Proof.
  destruct (aggregate_votes_run today now outs config) as (s & r & Hs & _ & Hrun).
  eexists s, _. split; [exact Hs |]. split; [exact Hrun |]. simpl.
  rewrite length_fmap. repeat split.
Qed.

Section Facts.

Variable format_2f : Q → string.
Variable format_plain : Q → string.


End Facts.

End PipelineFacts.
